(** * a2b: the entry formatter of [src/features/EntryCard.tsx]

    A shallow embedding of [joinAuthorsGetKey], [buildPairing] and
    [formatEntry], and the properties of the citation text they produce.

    Conventions of the embedding.
    - A JavaScript string is a [string]; one [ascii] stands for one code unit
      (the code units below 256), so [String.length] is [.length].
    - A [Pairing] is a JavaScript object.  Objects live in a [heap] and are
      named by a location, because [formatEntry] writes to the object it is
      given.  The state of one object is the list of its own properties in
      [Object.keys] order, which is insertion order for the property names
      used here (none of them is an array index).
    - Code that can throw runs in the monad [M]: a heap transformer that
      returns [Ok] or [Throw]. *)

From Stdlib Require Import String Ascii List ZArith Lia Bool DecimalString.
Import ListNotations.
Local Open Scope string_scope.

(* ================================================================== *)
(** ** JavaScript runtime: numbers, strings, exceptions *)

Module JS.

Inductive exn : Type := RangeError | TypeError.

Inductive result (A : Type) : Type :=
| Ok (a : A)
| Throw (e : exn).
Arguments Ok {A} a.
Arguments Throw {A} e.

(** The numbers the renderer computes with: integers and the
    [-Infinity] that [Math.max()] returns on no argument. *)
Inductive number : Type := NegInfinity | Int (z : Z).

Definition plus (a : number) (z : Z) : number :=
  match a with NegInfinity => NegInfinity | Int x => Int (x + z) end.

Definition minus (a : number) (z : Z) : number :=
  match a with NegInfinity => NegInfinity | Int x => Int (x - z) end.

(** [Math.max(...l)] *)
Fixpoint Math_max (l : list Z) : number :=
  match l with
  | [] => NegInfinity
  | z :: l' =>
      match Math_max l' with
      | NegInfinity => Int z
      | Int m => Int (Z.max z m)
      end
  end.

Definition newline : ascii := "010"%char.

(** The string ["\n"]. *)
Definition nl : string := String newline "".

Fixpoint spaces (n : nat) : string :=
  match n with
  | O => ""
  | S n' => String " " (spaces n')
  end.

(** [" ".repeat(count)]: a [RangeError] on a negative or infinite count. *)
Definition repeat_space (count : number) : result string :=
  match count with
  | NegInfinity => Throw RangeError
  | Int z => if (z <? 0)%Z then Throw RangeError else Ok (spaces (Z.to_nat z))
  end.

(** [s.length] as a number. *)
Definition len (s : string) : Z := Z.of_nat (String.length s).

(** [s.slice(0, n)] *)
Definition slice0 (n : nat) (s : string) : string := substring 0 n s.

(** [s.replace(/\n/g, r)] *)
Fixpoint replace_newlines (r s : string) : string :=
  match s with
  | "" => ""
  | String c s' =>
      if Ascii.eqb c newline then r ++ replace_newlines r s'
      else String c (replace_newlines r s')
  end.

(** [l[l.length - 1]]: [None] is [undefined]. *)
Fixpoint last_elt (l : list string) : option string :=
  match l with
  | [] => None
  | [x] => Some x
  | _ :: l' => last_elt l'
  end.

(** [s[0]] *)
Definition char0 (s : string) : option string :=
  match s with
  | "" => None
  | String c _ => Some (String c "")
  end.

(** String coercion of a possibly undefined string, as in
    [undefined + ", "] and in a template literal. *)
Definition toString (o : option string) : string :=
  match o with Some s => s | None => "undefined" end.

(** [l.join(sep)]: [undefined] elements are joined as empty strings. *)
Definition join (sep : string) (l : list (option string)) : string :=
  String.concat sep (map (fun o => match o with Some s => s | None => "" end) l).

(** Truthiness of an optional string: absent and [""] are falsy. *)
Definition present (o : option string) : bool :=
  match o with
  | None => false
  | Some s => negb (s =? "")
  end.

(** Decimal text of an integer, as React shows a number child. *)
Definition show_Z (z : Z) : string := NilZero.string_of_int (Z.to_int z).

End JS.
Import JS.

(* ================================================================== *)
(** ** Values, objects and the heap *)

(** The two JSX elements the builder puts in a pairing. *)
Inductive jsx : Type :=
| Anchor (href : string) (children : string)   (* <a href=..>children</a> *)
| Abbr (title : string) (children : string).   (* <abbr title=..>children</abbr> *)

(** [string | JSX.Element | number | null | undefined] *)
Inductive pval : Type :=
| PUndef
| PNull
| PStr (s : string)
| PNum (n : Z)
| PElem (e : jsx).

(** A value in a condition: [""], [0], [null] and [undefined] are falsy. *)
Definition truthy (v : pval) : bool :=
  match v with
  | PUndef | PNull => false
  | PStr s => negb (s =? "")
  | PNum n => negb (n =? 0)%Z
  | PElem _ => true
  end.

(** The text a value shows as a React child. *)
Definition text_of (v : pval) : string :=
  match v with
  | PUndef | PNull => ""
  | PStr s => s
  | PNum n => show_Z n
  | PElem (Anchor _ c) => c
  | PElem (Abbr _ c) => c
  end.

Definition of_str (o : option string) : pval :=
  match o with Some s => PStr s | None => PUndef end.

Definition of_num (o : option Z) : pval :=
  match o with Some n => PNum n | None => PUndef end.

(** The own properties of an object, in [Object.keys] order. *)
Definition Pairing : Type := list (string * pval).

(** The children of a fragment, flattened. *)
Definition fragment : Type := list pval.

(** What the [<pre>] shows: the texts of the children, concatenated. *)
Fixpoint textContent (f : fragment) : string :=
  match f with
  | [] => ""
  | v :: f' => text_of v ++ textContent f'
  end.

Module Obj.

(** [o[k]] *)
Fixpoint get (o : Pairing) (k : string) : pval :=
  match o with
  | [] => PUndef
  | (k', v) :: o' => if k' =? k then v else get o' k
  end.

(** [o[k] = v]: an existing property keeps its place, a new one goes last. *)
Fixpoint set (o : Pairing) (k : string) (v : pval) : Pairing :=
  match o with
  | [] => [(k, v)]
  | (k', v') :: o' =>
      if k' =? k then (k', v) :: o' else (k', v') :: set o' k v
  end.

(** [delete o[k]] *)
Fixpoint delete (o : Pairing) (k : string) : Pairing :=
  match o with
  | [] => []
  | (k', v') :: o' =>
      if k' =? k then o' else (k', v') :: delete o' k
  end.

(** [Object.keys(o)] *)
Definition keys (o : Pairing) : list string := map fst o.

(** The properties [fields] written one after the other onto [o]. *)
Definition assign (o : Pairing) (fields : list (string * pval)) : Pairing :=
  fold_left (fun acc kv => set acc (fst kv) (snd kv)) fields o.

End Obj.

(** Locations of objects. *)
Abbreviation loc := nat (only parsing).

Record heap : Type := { next : loc; objs : loc -> Pairing }.

Definition empty_heap : heap := {| next := 0; objs := fun _ => [] |}.

Definition store (l : loc) (o : Pairing) (f : loc -> Pairing) : loc -> Pairing :=
  fun l' => if Nat.eqb l' l then o else f l'.

(** Heap transformers that may throw. *)
Definition M (A : Type) : Type := heap -> result (A * heap).

Definition ret {A} (a : A) : M A := fun h => Ok (a, h).

Definition bind {A B} (m : M A) (f : A -> M B) : M B :=
  fun h =>
    match m h with
    | Ok (a, h') => f a h'
    | Throw e => Throw e
    end.

Definition lift {A} (r : result A) : M A :=
  fun h => match r with Ok a => Ok (a, h) | Throw e => Throw e end.

Declare Scope js_scope.
Delimit Scope js_scope with js.
Notation "x <- m ;; k" := (bind m (fun x => k))
  (at level 61, m at next level, right associativity) : js_scope.
Notation "m ;;; k" := (bind m (fun _ => k))
  (at level 61, right associativity) : js_scope.
Local Open Scope js_scope.

Fixpoint mapM {A B} (f : A -> M B) (l : list A) : M (list B) :=
  match l with
  | [] => ret []
  | a :: l' => b <- f a ;; bs <- mapM f l' ;; ret (b :: bs)
  end.

(** [l.forEach(f)] *)
Fixpoint forEach {A} (f : A -> M unit) (l : list A) : M unit :=
  match l with
  | [] => ret tt
  | a :: l' => f a ;;; forEach f l'
  end.

(** The heap with one more object, at the next free location. *)
Definition alloc (h : heap) (o : Pairing) : heap :=
  {| next := S (next h); objs := store (next h) o (objs h) |}.

(** An object literal [{ k1: v1, ... }]: a new object. *)
Definition new_object (fields : list (string * pval)) : M loc :=
  fun h => Ok (next h, alloc h (Obj.assign [] fields)).

(** [{ ...src, k1: v1, ... }]: a new object that starts as a copy of [src]. *)
Definition spread (src : loc) (fields : list (string * pval)) : M loc :=
  fun h => Ok (next h, alloc h (Obj.assign (objs h src) fields)).

Definition get_prop (l : loc) (k : string) : M pval :=
  fun h => Ok (Obj.get (objs h l) k, h).

Definition set_prop (l : loc) (k : string) (v : pval) : M unit :=
  fun h =>
    Ok (tt, {| next := next h;
               objs := store l (Obj.set (objs h l) k v) (objs h) |}).

Definition delete_prop (l : loc) (k : string) : M unit :=
  fun h =>
    Ok (tt, {| next := next h;
               objs := store l (Obj.delete (objs h l) k) (objs h) |}).

Definition Object_keys (l : loc) : M (list string) :=
  fun h => Ok (Obj.keys (objs h l), h).

(** The receiver of [.replace]: a truthy value that is not a string has no
    such method, and the call throws. *)
Definition as_string (v : pval) : result string :=
  match v with
  | PStr s => Ok s
  | _ => Throw TypeError
  end.

(* ================================================================== *)
(** ** The data model *)

(** The module [../utils] that [EntryCard.tsx] imports is not among the
    sources.  Its two functions are parameters of the embedding:
    [splitter_ws a] stands for [splitter(a, /\s+/)]. *)
Class Utils : Type := {
  splitter_ws : string -> list string;
  removeAccents : string -> string
}.

(** Modelled from the spec: the declaration of [Entry] is not among the
    sources.  Authors, title, date and type are required, every other
    attribute is optional ([None] is an absent property).  The attributes the
    form reads from numeric inputs, and the version, are numbers. *)
Module Entry.
Record t : Type := {
  authors : list string;
  title : string;
  date : string;
  type : string;
  mainTitle : option string;
  subTitle : option string;
  journal : option string;
  series : option string;
  volume : option Z;
  number : option Z;
  publisher : option string;
  location : option string;
  ISBN : option string;
  pageTotal : option Z;
  pubstate : option string;
  id : option string;
  primaryCategory : option string;
  version : option Z;
  doi : option string;
  journalRef : option string;
  pdfLink : option string;
  comment : option string;
  abstract : option string
}.
End Entry.

(** Modelled from the spec: the declaration of [Settings] is not among the
    sources. *)
Module Settings.
Record t : Type := {
  mode : string;
  filePrefix : bool;
  fileFolder : string;
  includeFile : bool;
  includeAbstract : bool;
  includeWget : bool;
  includeVersion : bool;
  includePrimaryCategory : bool;
  wgetPowershell : bool
}.
End Settings.

(** The result of [joinAuthorsGetKey]. *)
Record KeyAuthors : Type := { key : string; authorList : string }.

(** The result of [buildPairing]; [wget = None] is [null]. *)
Module Built.
Record t : Type := {
  type : string;
  pairing : loc;
  key : string;
  wget : option string
}.
End Built.

(* ================================================================== *)
(** ** The three functions of [EntryCard.tsx] *)

Section Formatter.
Context `{Utils}.

(** [joinAuthorsGetKey], lines 24-42. *)
Definition joinAuthorsGetKey (authors : list string) (date : string) : KeyAuthors :=
  let splitAuthors := map splitter_ws authors in
  let authorList :=
    String.concat " and "
      (map (fun l => toString (last_elt l) ++ ", " ++ String.concat " " (removelast l))
           splitAuthors) in
  let year := slice0 4 date in
  let unformattedKey := join "" (map last_elt splitAuthors) ++ year in
  let key := removeAccents unformattedKey in
  {| key := key; authorList := authorList |}.

(** [formatEntry], lines 49-90.  The argument [pairing] is the location of
    the caller's object; the result is the fragment, its children flattened. *)
Definition formatEntry (type : string) (pairing : loc) (key : string) : M fragment :=
  keys <- Object_keys pairing ;;
  let maxKeyLength := Math_max (map len keys) in
  abstract <- get_prop pairing "abstract" ;;
  (if truthy abstract then
     pad <- lift (repeat_space (plus maxKeyLength 6)) ;;
     s <- lift (as_string abstract) ;;
     set_prop pairing "abstract" (PStr (replace_newlines (nl ++ pad) s))
   else ret tt) ;;;
  keys <- Object_keys pairing ;;
  rows <- mapM (fun key =>
                  pad <- lift (repeat_space (minus maxKeyLength (len key))) ;;
                  v <- get_prop pairing key ;;
                  ret [PStr "  "; PStr key; PStr pad; PStr " = {"; v; PStr ("}," ++ nl)])
               keys ;;
  ret (PStr ("@" ++ type ++ "{" ++ key ++ "," ++ nl) :: (concat rows ++ [PStr "}"])%list).

(** The title of the [abbr] element that flags a journalRef, line 122. *)
Definition abbr_title : string :=
  "Consider converting this entry to @article or something more appropriate.".

(** [buildPairing], lines 96-213.  Every object literal and every spread
    allocates a new object; the deletion loop works on the last one. *)
Definition buildPairing (entry : Entry.t) (settings : Settings.t) : M Built.t :=
  let goodMode := Settings.mode settings =? "biblatex" in
  let ka := joinAuthorsGetKey (Entry.authors entry) (Entry.date entry) in
  let key := key ka in
  let authorList := authorList ka in
  let fileName :=
    (if Settings.filePrefix settings then toString (char0 key) ++ "/" else "")
    ++ key ++ ".pdf" in
  let fileLink :=
    if present (Entry.pdfLink entry)
    then PElem (Anchor (toString (Entry.pdfLink entry)) fileName)
    else PStr fileName in
  let journalRefLink :=
    if present (Entry.journalRef entry)
    then PElem (Abbr abbr_title (toString (Entry.journalRef entry)))
    else PNull in
  let doiLink :=
    if present (Entry.doi entry)
    then PElem (Anchor ("https://dx.doi.org/" ++ toString (Entry.doi entry))
                       (toString (Entry.doi entry)))
    else PNull in
  let journal :=
    if present (Entry.journal entry)
    then PStr (toString (Entry.journal entry)
               ++ (if negb goodMode && present (Entry.series entry)
                   then " (" ++ toString (Entry.series entry) ++ ")"
                   else ""))
    else PNull in
  let dateOrYear := if goodMode then Entry.date entry else slice0 4 (Entry.date entry) in
  pairing <- new_object
    [ ("author", PStr authorList);
      (if goodMode then "date" else "year", PStr dateOrYear);
      ("title", PStr (Entry.title entry));
      (if goodMode then "journaltitle" else "journal", journal);
      ("series", if goodMode then of_str (Entry.series entry) else PNull);
      ("maintitle", of_str (Entry.mainTitle entry));
      ("subtitle", of_str (Entry.subTitle entry));
      ("volume", of_num (Entry.volume entry));
      ("number", of_num (Entry.number entry));
      ("publisher", of_str (Entry.publisher entry));
      ("location", of_str (Entry.location entry));
      ("isbn", of_str (Entry.ISBN entry));
      ("pagetotal", of_num (Entry.pageTotal entry)) ] ;;
  pairing <-
    (if present (Entry.id entry) then
       let absURL := "https://arxiv.org/abs/" ++ toString (Entry.id entry) in
       spread pairing
         [ ("eprint", PElem (Anchor absURL (toString (Entry.id entry))));
           (if goodMode then "eprinttype" else "archiveprefix", PStr "arXiv");
           (if goodMode then "eprintclass" else "primaryclass",
            if Settings.includePrimaryCategory settings
            then of_str (Entry.primaryCategory entry) else PNull);
           ("version",
            if goodMode && Settings.includeVersion settings
            then of_num (Entry.version entry) else PNull);
           ("url", if goodMode then PNull else PStr absURL) ]
     else ret pairing) ;;
  pairing <-
    (if goodMode then
       spread pairing
         [ ("pubstate", of_str (Entry.pubstate entry));
           ("howpublished", journalRefLink) ]
     else
       spread pairing
         [ ("note",
            if present (Entry.doi entry) || present (Entry.journalRef entry)
            then journalRefLink else PStr "Preprint") ]) ;;
  pairing <- spread pairing
    [ ("doi", doiLink);
      ("file", if Settings.includeFile settings then fileLink else PNull);
      ("comment", of_str (Entry.comment entry));
      ("abstract",
       if Settings.includeAbstract settings then of_str (Entry.abstract entry) else PNull) ] ;;
  keys <- Object_keys pairing ;;
  forEach (fun k =>
             v <- get_prop pairing k ;;
             if negb (truthy v) then delete_prop pairing k else ret tt)
          keys ;;;
  let wget :=
    if Settings.includeFile settings && present (Entry.pdfLink entry) then
      if Settings.wgetPowershell settings then
        Some ("pwsh -Command Invoke-WebRequest " ++ toString (Entry.pdfLink entry)
              ++ " -OutFile " ++ Settings.fileFolder settings ++ "\" ++ fileName)
      else
        Some ("wget --user-agent='Mozilla' " ++ toString (Entry.pdfLink entry)
              ++ " -O " ++ Settings.fileFolder settings ++ "/" ++ fileName)
    else None in
  ret {| Built.type := Entry.type entry;
         Built.pairing := pairing;
         Built.key := key;
         Built.wget := wget |}.

(** The two calls of the [EntryCard] component, lines 231-232: a pairing is
    built and handed to the renderer. *)
Definition formattedEntry (entry : Entry.t) (settings : Settings.t) : M fragment :=
  b <- buildPairing entry settings ;;
  formatEntry (Built.type b) (Built.pairing b) (Built.key b).

End Formatter.

(* ================================================================== *)
(** ** The functions of [../utils], from the spec *)

Module SpecUtils.

(** The white space of [/\s/] among the code units below 256: tab, line
    feed, vertical tab, form feed, carriage return, space and the
    no-break space. *)
Definition is_space (c : ascii) : bool :=
  let n := nat_of_ascii c in
  (((9 <=? n) && (n <=? 13)) || (n =? 32) || (n =? 160))%nat.

Fixpoint tokens (cur s : string) : list string :=
  match s with
  | "" => if cur =? "" then [] else [cur]
  | String c s' =>
      if is_space c
      then (if cur =? "" then tokens "" s' else cur :: tokens "" s')
      else tokens (cur ++ String c "") s'
  end.

(** Modelled from the spec: [splitter] of [../utils], absent from the
    sources, applied to [/\s+/].  A name is split on white space into its
    tokens; a run of consecutive spaces is one split point. *)
Definition splitter_ws (a : string) : list string := tokens "" a.

(** The base letter of an accented Latin letter; any other code unit is
    kept. *)
Definition base_letter (c : ascii) : ascii :=
  let n := nat_of_ascii c in
  (if (192 <=? n) && (n <=? 197) then "A"
   else if n =? 199 then "C"
   else if (200 <=? n) && (n <=? 203) then "E"
   else if (204 <=? n) && (n <=? 207) then "I"
   else if n =? 209 then "N"
   else if (210 <=? n) && (n <=? 214) then "O"
   else if (217 <=? n) && (n <=? 220) then "U"
   else if n =? 221 then "Y"
   else if (224 <=? n) && (n <=? 229) then "a"
   else if n =? 231 then "c"
   else if (232 <=? n) && (n <=? 235) then "e"
   else if (236 <=? n) && (n <=? 239) then "i"
   else if n =? 241 then "n"
   else if (242 <=? n) && (n <=? 246) then "o"
   else if (249 <=? n) && (n <=? 252) then "u"
   else if (n =? 253) || (n =? 255) then "y"
   else c)%nat%char.

(** Modelled from the spec: [removeAccents] of [../utils], absent from the
    sources.  Diacritics are stripped: every accented letter becomes its
    base Latin letter. *)
Fixpoint removeAccents (s : string) : string :=
  match s with
  | "" => ""
  | String c s' => String (base_letter c) (removeAccents s')
  end.

End SpecUtils.

(** The formatter run with the functions of the spec. *)
Definition spec_utils : Utils :=
  {| splitter_ws := SpecUtils.splitter_ws;
     removeAccents := SpecUtils.removeAccents |}.

(* ================================================================== *)
(** ** Reading a rendered entry back *)

Module Reparse.

(** The lines of a text: the pieces between line breaks. *)
Fixpoint lines (s : string) : list string :=
  match s with
  | "" => [""]
  | String c s' =>
      if Ascii.eqb c newline then "" :: lines s'
      else match lines s' with
           | [] => [String c ""]
           | l :: ls => String c l :: ls
           end
  end.

(** A line split on its first [=]. *)
Fixpoint split_eq (s : string) : option (string * string) :=
  match s with
  | "" => None
  | String c s' =>
      if Ascii.eqb c "="%char then Some ("", s')
      else match split_eq s' with
           | Some (a, b) => Some (String c a, b)
           | None => None
           end
  end.

Fixpoint ltrim (s : string) : string :=
  match s with
  | "" => ""
  | String c s' => if SpecUtils.is_space c then ltrim s' else s
  end.

Fixpoint rtrim (s : string) : string :=
  match s with
  | "" => ""
  | String c s' =>
      match rtrim s' with
      | "" => if SpecUtils.is_space c then "" else String c ""
      | r => String c r
      end
  end.

(** The white space around a string removed. *)
Definition trim (s : string) : string := rtrim (ltrim s).

(** [s] without its ending [suffix], when it ends so. *)
Fixpoint strip_suffix (suffix s : string) : option string :=
  if s =? suffix then Some ""
  else match s with
       | "" => None
       | String c s' => option_map (String c) (strip_suffix suffix s')
       end.

(** The value between the opening brace and the closing brace and comma. *)
Definition braced (s : string) : option string :=
  match s with
  | String "{" r => strip_suffix "}," r
  | _ => None
  end.

Definition parse_line (line : string) : option (string * string) :=
  match split_eq line with
  | Some (l, r) =>
      match braced (trim r) with
      | Some v => Some (trim l, v)
      | None => None
      end
  | None => None
  end.

Fixpoint parse_lines (ls : list string) : option (list (string * string)) :=
  match ls with
  | [] => Some []
  | l :: ls' =>
      match parse_line l, parse_lines ls' with
      | Some kv, Some kvs => Some (kv :: kvs)
      | _, _ => None
      end
  end.

(** The key and value of every body line of a rendered entry: the lines
    between the header line and the closing brace. *)
Definition reparse (text : string) : option (list (string * string)) :=
  match lines text with
  | [] => None
  | _ :: body => parse_lines (removelast body)
  end.

End Reparse.

(** The key and value texts that a pairing shows. *)
Definition shown (o : Pairing) : list (string * string) :=
  map (fun kv => (fst kv, text_of (snd kv))) o.

(* ================================================================== *)
(** ** Closed forms of what the renderer computes *)

(** The length of the longest key of an object; 0 when it has none. *)
Fixpoint longest (o : Pairing) : nat :=
  match o with
  | [] => 0
  | (k, _) :: o' => Nat.max (String.length k) (longest o')
  end.

(** The declared type of [Pairing.abstract]: [string | null | undefined]. *)
Definition abstract_is_text (o : Pairing) : bool :=
  match Obj.get o "abstract" with
  | PNum _ | PElem _ => false
  | _ => true
  end.

(** No two properties of an object have the same name. *)
Definition well_formed (o : Pairing) : Prop := NoDup (Obj.keys o).

(** A text with every line break followed by [n] spaces. *)
Definition indent_lines (n : nat) (s : string) : string :=
  replace_newlines (nl ++ spaces n) s.

(** The object after [formatEntry]: a truthy abstract is overwritten. *)
Definition padded (o : Pairing) : Pairing :=
  let v := Obj.get o "abstract" in
  if truthy v
  then Obj.set o "abstract" (PStr (indent_lines (longest o + 6) (text_of v)))
  else o.

(** The children that show one property, [m] being the longest key length. *)
Definition row (m : nat) (kv : string * pval) : fragment :=
  [ PStr "  "; PStr (fst kv); PStr (spaces (m - String.length (fst kv)));
    PStr " = {"; snd kv; PStr ("}," ++ nl) ].

(** The text before the value in the row of key [k]. *)
Definition row_prefix (m : nat) (k : string) : string :=
  "  " ++ k ++ spaces (m - String.length k) ++ " = {".

Definition row_text (m : nat) (kv : string * pval) : string :=
  row_prefix m (fst kv) ++ text_of (snd kv) ++ "}," ++ nl.

Definition header (type key : string) : string :=
  "@" ++ type ++ "{" ++ key ++ "," ++ nl.

(** The fragment of an entry whose object, once padded, is [o]. *)
Definition rendered (type : string) (o : Pairing) (key : string) : fragment :=
  (PStr (header type key) :: concat (map (row (longest o)) o) ++ [PStr "}"])%list.

(** [h'] is [h] with the object at [l] replaced by [o]. *)
Definition updates (h : heap) (l : loc) (o : Pairing) (h' : heap) : Prop :=
  next h' = next h /\ objs h' l = o /\
  forall l', l' <> l -> objs h' l' = objs h l'.

(** [h'] is [h] with new objects: the objects of [h] are as they were. *)
Definition extends (h h' : heap) : Prop :=
  next h <= next h' /\ forall l, l < next h -> objs h' l = objs h l.

(** Whether a text has a line break. *)
Fixpoint has_newline (s : string) : bool :=
  match s with
  | "" => false
  | String c s' => Ascii.eqb c newline || has_newline s'
  end.

(** The properties of an object whose value is truthy. *)
Definition kept (o : Pairing) : Pairing :=
  filter (fun kv => truthy (snd kv)) o.

(** The pairing that [buildPairing] assembles, before the empty values are
    deleted, as one list of properties. *)
Section Assembly.
Context `{Utils}.
Variables (entry : Entry.t) (settings : Settings.t).

Definition goodMode : bool := Settings.mode settings =? "biblatex".

Definition entryKey : string :=
  key (joinAuthorsGetKey (Entry.authors entry) (Entry.date entry)).

Definition fileName : string :=
  (if Settings.filePrefix settings then toString (char0 entryKey) ++ "/" else "")
  ++ entryKey ++ ".pdf".

Definition fileLink : pval :=
  if present (Entry.pdfLink entry)
  then PElem (Anchor (toString (Entry.pdfLink entry)) fileName)
  else PStr fileName.

Definition journalRefLink : pval :=
  if present (Entry.journalRef entry)
  then PElem (Abbr abbr_title (toString (Entry.journalRef entry)))
  else PNull.

Definition doiLink : pval :=
  if present (Entry.doi entry)
  then PElem (Anchor ("https://dx.doi.org/" ++ toString (Entry.doi entry))
                     (toString (Entry.doi entry)))
  else PNull.

Definition journalValue : pval :=
  if present (Entry.journal entry)
  then PStr (toString (Entry.journal entry)
             ++ (if negb goodMode && present (Entry.series entry)
                 then " (" ++ toString (Entry.series entry) ++ ")"
                 else ""))
  else PNull.

Definition absURL : string := "https://arxiv.org/abs/" ++ toString (Entry.id entry).

Definition noteValue : pval :=
  if present (Entry.doi entry) || present (Entry.journalRef entry)
  then journalRefLink else PStr "Preprint".

Definition base_fields : Pairing :=
  [ ("author",
     PStr (authorList (joinAuthorsGetKey (Entry.authors entry) (Entry.date entry))));
    (if goodMode then "date" else "year",
     PStr (if goodMode then Entry.date entry else slice0 4 (Entry.date entry)));
    ("title", PStr (Entry.title entry));
    (if goodMode then "journaltitle" else "journal", journalValue);
    ("series", if goodMode then of_str (Entry.series entry) else PNull);
    ("maintitle", of_str (Entry.mainTitle entry));
    ("subtitle", of_str (Entry.subTitle entry));
    ("volume", of_num (Entry.volume entry));
    ("number", of_num (Entry.number entry));
    ("publisher", of_str (Entry.publisher entry));
    ("location", of_str (Entry.location entry));
    ("isbn", of_str (Entry.ISBN entry));
    ("pagetotal", of_num (Entry.pageTotal entry)) ].

Definition arxiv_fields : Pairing :=
  if present (Entry.id entry) then
    [ ("eprint", PElem (Anchor absURL (toString (Entry.id entry))));
      (if goodMode then "eprinttype" else "archiveprefix", PStr "arXiv");
      (if goodMode then "eprintclass" else "primaryclass",
       if Settings.includePrimaryCategory settings
       then of_str (Entry.primaryCategory entry) else PNull);
      ("version",
       if goodMode && Settings.includeVersion settings
       then of_num (Entry.version entry) else PNull);
      ("url", if goodMode then PNull else PStr absURL) ]
  else [].

Definition mode_fields : Pairing :=
  if goodMode then
    [ ("pubstate", of_str (Entry.pubstate entry));
      ("howpublished", journalRefLink) ]
  else
    [ ("note", noteValue) ].

Definition last_fields : Pairing :=
  [ ("doi", doiLink);
    ("file", if Settings.includeFile settings then fileLink else PNull);
    ("comment", of_str (Entry.comment entry));
    ("abstract",
     if Settings.includeAbstract settings then of_str (Entry.abstract entry) else PNull) ].

Definition assembled : Pairing :=
  (base_fields ++ arxiv_fields ++ mode_fields ++ last_fields)%list.

Definition wget_command : option string :=
  if Settings.includeFile settings && present (Entry.pdfLink entry) then
    if Settings.wgetPowershell settings then
      Some ("pwsh -Command Invoke-WebRequest " ++ toString (Entry.pdfLink entry)
            ++ " -OutFile " ++ Settings.fileFolder settings ++ "\" ++ fileName)
    else
      Some ("wget --user-agent='Mozilla' " ++ toString (Entry.pdfLink entry)
            ++ " -O " ++ Settings.fileFolder settings ++ "/" ++ fileName)
  else None.

End Assembly.

(** The text of the rows of an object. *)
Fixpoint rows_text (m : nat) (o : Pairing) : string :=
  match o with
  | [] => ""
  | kv :: o' => row_text m kv ++ rows_text m o'
  end.

(** The text of an entry whose object, once padded, is [o]. *)
Definition entry_text (type : string) (o : Pairing) (key : string) : string :=
  header type key ++ rows_text (longest o) o ++ "}".

(** Whether a text has an equals sign. *)
Fixpoint has_equals (s : string) : bool :=
  match s with
  | "" => false
  | String c s' => Ascii.eqb c "="%char || has_equals s'
  end.

(** Whether a line is empty or made of white space only. *)
Fixpoint blank (s : string) : bool :=
  match s with
  | "" => true
  | String c s' => SpecUtils.is_space c && blank s'
  end.

(** The surname of a name: its last token, nothing when it has no token. *)
Definition surname `{Utils} (a : string) : string := last (splitter_ws a) "".

(** The fragment that the component shows: it depends on the entry and on
    the settings only. *)
Definition shownEntry `{Utils} (entry : Entry.t) (settings : Settings.t) : fragment :=
  rendered (Entry.type entry) (padded (kept (assembled entry settings)))
           (entryKey entry).

(** Sample inputs: the entry of the examples, with the journal, the series
    and the link of the spec; the two dialects, with the file included. *)
Definition sample_entry : Entry.t :=
  {| Entry.authors := ["Jane Doe"; "John Dew"];
     Entry.title := "A title";
     Entry.date := "2020-01-01";
     Entry.type := "article";
     Entry.mainTitle := None;
     Entry.subTitle := None;
     Entry.journal := Some "Annals of Math";
     Entry.series := Some "2nd series";
     Entry.volume := None;
     Entry.number := None;
     Entry.publisher := None;
     Entry.location := None;
     Entry.ISBN := None;
     Entry.pageTotal := None;
     Entry.pubstate := None;
     Entry.id := None;
     Entry.primaryCategory := None;
     Entry.version := None;
     Entry.doi := None;
     Entry.journalRef := None;
     Entry.pdfLink := Some "http://x/y.pdf";
     Entry.comment := None;
     Entry.abstract := None |}.

Definition bibtex_settings : Settings.t :=
  {| Settings.mode := "bibtex";
     Settings.filePrefix := false;
     Settings.fileFolder := "papers";
     Settings.includeFile := true;
     Settings.includeAbstract := true;
     Settings.includeWget := true;
     Settings.includeVersion := true;
     Settings.includePrimaryCategory := true;
     Settings.wgetPowershell := false |}.

Definition biblatex_settings : Settings.t :=
  {| Settings.mode := "biblatex";
     Settings.filePrefix := false;
     Settings.fileFolder := "papers";
     Settings.includeFile := true;
     Settings.includeAbstract := true;
     Settings.includeWget := true;
     Settings.includeVersion := true;
     Settings.includePrimaryCategory := true;
     Settings.wgetPowershell := false |}.

(** A date that starts with an accented letter, e with an acute accent
    (code unit 233). *)
Definition accented_date : string := String "233"%char "2020".

(** One row without its line break. *)
Definition row_line (m : nat) (kv : string * pval) : string :=
  row_prefix m (fst kv) ++ text_of (snd kv) ++ "},".

(** A key that a line can be split on: no line break, no equals sign, no
    white space at either end. *)
Definition plain_key (k : string) : bool :=
  negb (has_newline k) && negb (has_equals k)
  && (Reparse.ltrim k =? k) && (Reparse.rtrim k =? k).

(** A value that, when truthy, shows some text. *)
Definition solid (v : pval) : Prop := truthy v = true -> text_of v <> "".

(** An entry with another title. *)
Definition with_title (t : string) (e : Entry.t) : Entry.t :=
  {| Entry.authors := Entry.authors e;
     Entry.title := t;
     Entry.date := Entry.date e;
     Entry.type := Entry.type e;
     Entry.mainTitle := Entry.mainTitle e;
     Entry.subTitle := Entry.subTitle e;
     Entry.journal := Entry.journal e;
     Entry.series := Entry.series e;
     Entry.volume := Entry.volume e;
     Entry.number := Entry.number e;
     Entry.publisher := Entry.publisher e;
     Entry.location := Entry.location e;
     Entry.ISBN := Entry.ISBN e;
     Entry.pageTotal := Entry.pageTotal e;
     Entry.pubstate := Entry.pubstate e;
     Entry.id := Entry.id e;
     Entry.primaryCategory := Entry.primaryCategory e;
     Entry.version := Entry.version e;
     Entry.doi := Entry.doi e;
     Entry.journalRef := Entry.journalRef e;
     Entry.pdfLink := Entry.pdfLink e;
     Entry.comment := Entry.comment e;
     Entry.abstract := Entry.abstract e |}.

(** A heap whose only object, at location 0, is [o]. *)
Definition heap_of (o : Pairing) : heap := alloc empty_heap o.

(** Sample objects: keys of lengths 3, 7 and 10; a title of two lines; an
    abstract of two lines. *)
Definition three_keys : Pairing :=
  [ ("doi", PStr "10.1000/x"); ("journal", PStr "Annals");
    ("eprinttype", PStr "arXiv") ].

Definition two_line_title : Pairing :=
  [ ("title", PStr ("a" ++ nl ++ "b")) ].

Definition two_line_abstract : Pairing :=
  [ ("title", PStr "T"); ("abstract", PStr ("a" ++ nl ++ "b")) ].

(* ================================================================== *)
(** ** The rest of the component and the form *)

(** What the [EntryCard] component shows, lines 231-253: the formatted entry
    in the [pre] element and, under it, the download command when the
    settings ask for it and there is one ([None]: the block is [null]). *)
Record Card : Type := { card_pre : fragment; card_wget : option string }.

Section Component.
Context `{Utils}.

(** [EntryCard], lines 218-256, without the clipboard button. *)
Definition EntryCard (entry : Entry.t) (settings : Settings.t) : M Card :=
  b <- buildPairing entry settings ;;
  formattedEntry <- formatEntry (Built.type b) (Built.pairing b) (Built.key b) ;;
  ret {| card_pre := formattedEntry;
         card_wget := if Settings.includeWget settings && present (Built.wget b)
                      then Built.wget b else None |}.

End Component.

(** [n + 1] calls of the renderer on the same object, one after the other;
    the fragment is the one of the last call. *)
Fixpoint formatEntry_again (n : nat) (type : string) (pairing : loc) (key : string)
  : M fragment :=
  match n with
  | O => formatEntry type pairing key
  | S n' => formatEntry type pairing key ;;; formatEntry_again n' type pairing key
  end.

(** The keys of a pairing in the order in which [buildPairing] writes them,
    lines 143-197, for each mode. *)
Definition field_order (goodMode : bool) : list string :=
  [ "author"; if goodMode then "date" else "year"; "title";
    if goodMode then "journaltitle" else "journal"; "series"; "maintitle";
    "subtitle"; "volume"; "number"; "publisher"; "location"; "isbn";
    "pagetotal"; "eprint"; if goodMode then "eprinttype" else "archiveprefix";
    if goodMode then "eprintclass" else "primaryclass"; "version"; "url" ]
  ++ (if goodMode then ["pubstate"; "howpublished"] else ["note"])
  ++ [ "doi"; "file"; "comment"; "abstract" ].

(** The form of [src/unnamed/part_000] (the DIY page), lines 51-61. *)
Module Diy.

(** [s.split(sep)] for a separator of one character. *)
Fixpoint split (sep : ascii) (s : string) : list string :=
  match s with
  | "" => [""]
  | String c s' =>
      if Ascii.eqb c sep then "" :: split sep s'
      else match split sep s' with
           | [] => [String c ""]
           | x :: xs => String c x :: xs
           end
  end.

(** [s.trim()] *)
Definition trim (s : string) : string := Reparse.rtrim (Reparse.ltrim s).

(** The authors of the form, line 54:
    [values.authors.split('&').filter(s => s).map(s => s.trim())]. *)
Definition authors (field : string) : list string :=
  map trim (filter (fun s => negb (s =? "")) (split "&"%char field)).

(** Whether a text has an ampersand. *)
Fixpoint has_amp (s : string) : bool :=
  match s with
  | "" => false
  | String c s' => Ascii.eqb c "&"%char || has_amp s'
  end.

End Diy.

(** More sample inputs: a preprint of the arXiv with an abstract of two
    lines, and an entry without author and date, whose key is empty. *)
Definition arxiv_entry : Entry.t :=
  {| Entry.authors := ["Jane Doe"];
     Entry.title := "A title";
     Entry.date := "2020-01-01";
     Entry.type := "misc";
     Entry.mainTitle := None;
     Entry.subTitle := None;
     Entry.journal := None;
     Entry.series := None;
     Entry.volume := None;
     Entry.number := None;
     Entry.publisher := None;
     Entry.location := None;
     Entry.ISBN := None;
     Entry.pageTotal := None;
     Entry.pubstate := None;
     Entry.id := Some "2001.00001";
     Entry.primaryCategory := Some "math.AT";
     Entry.version := Some 2%Z;
     Entry.doi := Some "10.1000/x";
     Entry.journalRef := None;
     Entry.pdfLink := None;
     Entry.comment := None;
     Entry.abstract := Some ("a" ++ nl ++ "b") |}.

Definition no_key_entry : Entry.t :=
  {| Entry.authors := [];
     Entry.title := "A title";
     Entry.date := "";
     Entry.type := "misc";
     Entry.mainTitle := None;
     Entry.subTitle := None;
     Entry.journal := None;
     Entry.series := None;
     Entry.volume := None;
     Entry.number := None;
     Entry.publisher := None;
     Entry.location := None;
     Entry.ISBN := None;
     Entry.pageTotal := None;
     Entry.pubstate := None;
     Entry.id := None;
     Entry.primaryCategory := None;
     Entry.version := None;
     Entry.doi := None;
     Entry.journalRef := None;
     Entry.pdfLink := None;
     Entry.comment := None;
     Entry.abstract := None |}.

(** Settings with the first character of the key as a folder. *)
Definition prefix_settings : Settings.t :=
  {| Settings.mode := "bibtex";
     Settings.filePrefix := true;
     Settings.fileFolder := "papers";
     Settings.includeFile := true;
     Settings.includeAbstract := true;
     Settings.includeWget := true;
     Settings.includeVersion := true;
     Settings.includePrimaryCategory := true;
     Settings.wgetPowershell := false |}.

(* ================================================================== *)
(** ** Strings *)

Lemma append_nil_r (s : string) : s ++ "" = s.
Proof. induction s as [|c s IH]; simpl; [reflexivity | now rewrite IH]. Qed.

Lemma append_assoc (a b c : string) : (a ++ b) ++ c = a ++ (b ++ c).
Proof. induction a as [|x a IH]; simpl; [reflexivity | now rewrite IH]. Qed.

Lemma length_append (a b : string) :
  String.length (a ++ b) = String.length a + String.length b.
Proof. induction a as [|x a IH]; simpl; [reflexivity | now rewrite IH]. Qed.

Lemma length_spaces (n : nat) : String.length (spaces n) = n.
Proof. induction n as [|n IH]; simpl; [reflexivity | now rewrite IH]. Qed.

Lemma get_append_at (a b : string) (c : ascii) :
  String.get (String.length a) (a ++ String c b) = Some c.
Proof. induction a as [|x a IH]; simpl; [reflexivity | exact IH]. Qed.

Lemma has_newline_append (a b : string) :
  has_newline (a ++ b) = has_newline a || has_newline b.
Proof.
  induction a as [|x a IH]; simpl; [reflexivity |].
  now rewrite IH, orb_assoc.
Qed.

Lemma has_newline_spaces (n : nat) : has_newline (spaces n) = false.
Proof. induction n as [|n IH]; simpl; [reflexivity | exact IH]. Qed.

Lemma replace_newlines_none (r s : string) :
  has_newline s = false -> replace_newlines r s = s.
Proof.
  induction s as [|c s IH]; simpl; [reflexivity |].
  intros Hs. apply orb_false_iff in Hs as [Hc Hs].
  rewrite Hc. now rewrite IH.
Qed.

Lemma show_Z_nonempty (z : Z) : show_Z z <> "".
Proof.
  unfold show_Z.
  destruct (Z.to_int z) as [u|u]; simpl.
  - destruct u; simpl; discriminate.
  - discriminate.
Qed.

(* ================================================================== *)
(** ** Objects *)

Lemma longest_ge (o : Pairing) (k : string) :
  In k (Obj.keys o) -> String.length k <= longest o.
Proof.
  induction o as [|[k' v'] o IH]; simpl; [contradiction |].
  intros [<- | Hin]; [lia |].
  specialize (IH Hin). lia.
Qed.

Lemma longest_keys (o o' : Pairing) :
  Obj.keys o = Obj.keys o' -> longest o = longest o'.
Proof.
  revert o'. induction o as [|[k v] o IH]; intros [|[k' v'] o']; simpl;
    try discriminate; [reflexivity |].
  intros Hk. injection Hk as -> Hk. now rewrite (IH o' Hk).
Qed.

Lemma Math_max_longest (o : Pairing) :
  o <> [] -> Math_max (map len (Obj.keys o)) = Int (Z.of_nat (longest o)).
Proof.
  induction o as [|[k v] o IH]; [congruence |].
  intros _. simpl. destruct o as [|kv o].
  - simpl. unfold len. f_equal. lia.
  - rewrite IH by discriminate. unfold len. f_equal. lia.
Qed.

Lemma get_not_in (o : Pairing) (k : string) :
  ~ In k (Obj.keys o) -> Obj.get o k = PUndef.
Proof.
  induction o as [|[k' v'] o IH]; simpl; [reflexivity |].
  intros Hn. destruct (String.eqb_spec k' k) as [->|_].
  - exfalso. apply Hn. now left.
  - apply IH. intros Hin. apply Hn. now right.
Qed.

Lemma keys_set_in (o : Pairing) (k : string) (v : pval) :
  In k (Obj.keys o) -> Obj.keys (Obj.set o k v) = Obj.keys o.
Proof.
  induction o as [|[k' v'] o IH]; simpl; [contradiction |].
  intros Hin. destruct (String.eqb_spec k' k) as [->|Hne]; simpl; [reflexivity |].
  f_equal. apply IH. destruct Hin as [Heq | Hin]; [congruence | exact Hin].
Qed.

Lemma keys_set_new (o : Pairing) (k : string) (v : pval) :
  ~ In k (Obj.keys o) -> Obj.set o k v = (o ++ [(k, v)])%list.
Proof.
  induction o as [|[k' v'] o IH]; simpl; [reflexivity |].
  intros Hn. destruct (String.eqb_spec k' k) as [->|_].
  - exfalso. apply Hn. now left.
  - f_equal. apply IH. intros Hin. apply Hn. now right.
Qed.

Lemma get_set_same (o : Pairing) (k : string) (v : pval) :
  Obj.get (Obj.set o k v) k = v.
Proof.
  induction o as [|[k' v'] o IH]; simpl.
  - now rewrite String.eqb_refl.
  - destruct (String.eqb_spec k' k) as [->|Hne]; simpl.
    + now rewrite String.eqb_refl.
    + apply String.eqb_neq in Hne. now rewrite Hne.
Qed.

Lemma get_set_other (o : Pairing) (k k' : string) (v : pval) :
  k' <> k -> Obj.get (Obj.set o k v) k' = Obj.get o k'.
Proof.
  intros Hne. induction o as [|[k0 v0] o IH]; simpl.
  - destruct (String.eqb_spec k k'); [congruence | reflexivity].
  - destruct (String.eqb_spec k0 k) as [->|Hk0]; simpl.
    + destruct (String.eqb_spec k k'); [congruence | reflexivity].
    + destruct (String.eqb_spec k0 k'); [reflexivity | exact IH].
Qed.

Lemma get_in (o : Pairing) (k : string) (v : pval) :
  well_formed o -> In (k, v) o -> Obj.get o k = v.
Proof.
  unfold well_formed.
  induction o as [|[k' v'] o IH]; simpl; [contradiction |].
  intros Hnd [Heq | Hin].
  - injection Heq as -> ->. now rewrite String.eqb_refl.
  - inversion Hnd as [|? ? Hnotin Hnd']; subst.
    destruct (String.eqb_spec k' k) as [->|_].
    + exfalso. apply Hnotin. change k with (fst (k, v)). now apply in_map.
    + now apply IH.
Qed.

Lemma get_truthy_in (o : Pairing) (k : string) :
  truthy (Obj.get o k) = true -> In k (Obj.keys o).
Proof.
  induction o as [|[k' v'] o IH]; simpl; [discriminate |].
  destruct (String.eqb_spec k' k) as [->|_]; [now left | right; now apply IH].
Qed.

(** Reading every key of a well-formed object gives back its properties. *)
Lemma map_get_keys (o : Pairing) (f : string * pval -> fragment) :
  well_formed o ->
  map (fun k => f (k, Obj.get o k)) (Obj.keys o) = map f o.
Proof.
  intros Hwf. unfold Obj.keys. rewrite map_map.
  apply map_ext_in. intros [k v] Hin. simpl.
  now rewrite (get_in o k v Hwf Hin).
Qed.

Lemma keys_padded (o : Pairing) : Obj.keys (padded o) = Obj.keys o.
Proof.
  unfold padded. destruct (truthy (Obj.get o "abstract")) eqn:Ht; [| reflexivity].
  apply keys_set_in. now apply get_truthy_in.
Qed.

Lemma well_formed_padded (o : Pairing) : well_formed o -> well_formed (padded o).
Proof. unfold well_formed. now rewrite keys_padded. Qed.

Lemma longest_padded (o : Pairing) : longest (padded o) = longest o.
Proof. apply longest_keys, keys_padded. Qed.

(* ================================================================== *)
(** ** Running the renderer *)

Lemma updates_refl (h : heap) (l : loc) : updates h l (objs h l) h.
Proof. repeat split. Qed.

Lemma repeat_space_nat (n : nat) : repeat_space (Int (Z.of_nat n)) = Ok (spaces n).
Proof.
  unfold repeat_space.
  destruct (Z.ltb_spec (Z.of_nat n) 0) as [Hlt|_]; [lia |].
  now rewrite Nat2Z.id.
Qed.

Lemma rows_run (l : loc) (h : heap) (maxKeyLength : number) (m : nat)
      (ks : list string) :
  (ks <> [] -> maxKeyLength = Int (Z.of_nat m)) ->
  (forall k, In k ks -> String.length k <= m) ->
  mapM (fun key =>
          pad <- lift (repeat_space (minus maxKeyLength (len key))) ;;
          v <- get_prop l key ;;
          ret [PStr "  "; PStr key; PStr pad; PStr " = {"; v; PStr ("}," ++ nl)])
       ks h
  = Ok (map (fun k => row m (k, Obj.get (objs h l) k)) ks, h).
Proof.
  intros Hmax Hle. induction ks as [|k ks IH]; [reflexivity |].
  assert (Hk : String.length k <= m) by (apply Hle; now left).
  assert (Hpad : repeat_space (minus maxKeyLength (len k))
                 = Ok (spaces (m - String.length k))).
  { rewrite Hmax by discriminate. unfold minus, len.
    replace (Z.of_nat m - Z.of_nat (String.length k))%Z
      with (Z.of_nat (m - String.length k)) by lia.
    apply repeat_space_nat. }
  cbn [mapM]. unfold bind at 1. unfold bind at 1. unfold lift at 1.
  rewrite Hpad. unfold get_prop at 1, ret at 1. unfold bind at 1.
  unfold bind at 1.
  rewrite IH; [reflexivity | intros _; apply Hmax; discriminate |].
  intros k0 Hin. apply Hle. now right.
Qed.

(** The renderer on any object whose abstract has its declared type: it
    does not throw, it returns the rows of the padded object, and it leaves
    the padded object at the location it was given. *)
Lemma formatEntry_run (type key : string) (l : loc) (h : heap) :
  abstract_is_text (objs h l) = true ->
  exists h',
    formatEntry type l key h
    = Ok ((PStr (header type key)
           :: concat (map (fun k => row (longest (objs h l))
                                        (k, Obj.get (padded (objs h l)) k))
                          (Obj.keys (objs h l)))
           ++ [PStr "}"])%list, h')
    /\ updates h l (padded (objs h l)) h'.
Proof.
  intros Htyped. set (o := objs h l) in *.
  unfold formatEntry.
  unfold bind at 1, Object_keys at 1. fold o.
  unfold bind at 1, get_prop at 1. fold o.
  unfold bind at 1.
  assert (Hle : forall k, In k (Obj.keys o) -> String.length k <= longest o)
    by (intros k; apply longest_ge).
  destruct (truthy (Obj.get o "abstract")) eqn:Ht.
  - assert (Hne : o <> []).
    { intros E. rewrite E in Ht. discriminate. }
    rewrite (Math_max_longest o Hne).
    unfold bind at 1, lift at 1, plus.
    replace (Z.of_nat (longest o) + 6)%Z with (Z.of_nat (longest o + 6)) by lia.
    rewrite repeat_space_nat.
    unfold bind at 1, lift at 1.
    unfold abstract_is_text in Htyped.
    destruct (Obj.get o "abstract") as [| |s|n|e] eqn:Hget; try discriminate.
    cbn [as_string]. unfold set_prop at 1. fold o.
    set (h1 := {| next := next h; objs := _ |}).
    assert (Hh1 : objs h1 l = padded o).
    { unfold h1, store. cbn [objs]. rewrite Nat.eqb_refl.
      unfold padded. rewrite Hget. cbn [truthy text_of] in *. rewrite Ht.
      reflexivity. }
    unfold bind at 1, Object_keys at 1. rewrite Hh1, keys_padded.
    unfold bind at 1.
    rewrite (rows_run l h1 _ (longest o)); [| intros _; reflexivity | exact Hle].
    rewrite Hh1. exists h1. split; [reflexivity |].
    repeat split; [exact Hh1 |].
    intros l' Hl'. unfold h1, store. cbn [objs].
    apply Nat.eqb_neq in Hl'. now rewrite Hl'.
  - unfold ret at 1.
    assert (Hpad : padded o = o) by (unfold padded; now rewrite Ht).
    unfold bind at 1, Object_keys at 1. fold o.
    unfold bind at 1.
    rewrite (rows_run l h _ (longest o));
      [| intros Hk; apply Math_max_longest; intros E; apply Hk; now rewrite E
       | exact Hle].
    fold o. rewrite Hpad. exists h. split; [reflexivity |].
    apply updates_refl.
Qed.

(* ================================================================== *)
(** ** Running the builder *)

Lemma updates_trans (h h1 h2 : heap) (l : loc) (o1 o2 : Pairing) :
  updates h l o1 h1 -> updates h1 l o2 h2 -> updates h l o2 h2.
Proof.
  intros (Hn1 & _ & Hf1) (Hn2 & Ho2 & Hf2). repeat split.
  - congruence.
  - exact Ho2.
  - intros l' Hl'. rewrite Hf2, Hf1; auto.
Qed.

Lemma extends_refl (h : heap) : extends h h.
Proof. split; auto. Qed.

Lemma extends_trans (h1 h2 h3 : heap) :
  extends h1 h2 -> extends h2 h3 -> extends h1 h3.
Proof.
  intros [Hn1 Hf1] [Hn2 Hf2]. split; [lia |].
  intros l Hl. rewrite Hf2 by lia. now apply Hf1.
Qed.

Lemma extends_alloc (h : heap) (o : Pairing) : extends h (alloc h o).
Proof.
  split; [simpl; lia |].
  intros l Hl. unfold alloc, store. cbn [objs].
  destruct (Nat.eqb_spec l (next h)); [lia | reflexivity].
Qed.

Lemma objs_alloc (h : heap) (o : Pairing) : objs (alloc h o) (next h) = o.
Proof. unfold alloc, store. cbn [objs]. now rewrite Nat.eqb_refl. Qed.

Lemma updates_extends (h h' : heap) (l : loc) (o : Pairing) (h0 : heap) :
  extends h0 h -> next h0 <= l -> updates h l o h' -> extends h0 h'.
Proof.
  intros [Hn Hf] Hl (Hn' & _ & Hf'). split; [lia |].
  intros l' Hl'. rewrite Hf' by lia. now apply Hf.
Qed.

Lemma get_app_new (pre o : Pairing) (k : string) :
  ~ In k (Obj.keys pre) -> Obj.get (pre ++ o)%list k = Obj.get o k.
Proof.
  induction pre as [|[k' v'] pre IH]; simpl; [reflexivity |].
  intros Hn. destruct (String.eqb_spec k' k) as [->|_].
  - exfalso. apply Hn. now left.
  - apply IH. intros Hin. apply Hn. now right.
Qed.

Lemma delete_app_new (pre o : Pairing) (k : string) :
  ~ In k (Obj.keys pre) -> Obj.delete (pre ++ o)%list k = (pre ++ Obj.delete o k)%list.
Proof.
  induction pre as [|[k' v'] pre IH]; simpl; [reflexivity |].
  intros Hn. destruct (String.eqb_spec k' k) as [->|_].
  - exfalso. apply Hn. now left.
  - f_equal. apply IH. intros Hin. apply Hn. now right.
Qed.

Lemma well_formed_app_head (pre rest : Pairing) (k : string) (v : pval) :
  well_formed (pre ++ (k, v) :: rest)%list -> ~ In k (Obj.keys pre).
Proof.
  unfold well_formed, Obj.keys. rewrite map_app. simpl.
  intros Hnd Hin. apply NoDup_remove_2 in Hnd.
  apply Hnd, in_or_app. now left.
Qed.

Lemma well_formed_app_drop (pre rest : Pairing) (kv : string * pval) :
  well_formed (pre ++ kv :: rest)%list -> well_formed (pre ++ rest)%list.
Proof.
  unfold well_formed, Obj.keys. rewrite !map_app. simpl.
  apply NoDup_remove_1.
Qed.

(** The deletion loop of [buildPairing], part of the way through: the
    properties before the remaining keys have been pruned already. *)
Lemma prune_from (l : loc) (rest pre : Pairing) (h : heap) :
  well_formed (pre ++ rest)%list ->
  objs h l = (pre ++ rest)%list ->
  exists h',
    forEach (fun k =>
               v <- get_prop l k ;;
               if negb (truthy v) then delete_prop l k else ret tt)
            (Obj.keys rest) h
    = Ok (tt, h')
    /\ updates h l (pre ++ kept rest)%list h'.
Proof.
  revert pre h. induction rest as [|[k v] rest IH]; intros pre h Hwf Hobj.
  - exists h. split; [reflexivity |].
    unfold kept. cbn [filter]. rewrite <- Hobj. apply updates_refl.
  - assert (Hnew : ~ In k (Obj.keys pre)) by (eapply well_formed_app_head; eauto).
    cbn [Obj.keys map fst forEach].
    unfold bind at 1, bind at 1, get_prop at 1.
    rewrite Hobj, (get_app_new pre _ k Hnew).
    cbn [Obj.get]. rewrite String.eqb_refl.
    unfold kept. cbn [filter snd]. fold (kept rest).
    destruct (truthy v) eqn:Ht; cbn [negb].
    + unfold ret at 1.
      destruct (IH (pre ++ [(k, v)])%list h) as (h' & Hrun & Hupd).
      * now rewrite <- app_assoc.
      * now rewrite <- app_assoc.
      * exists h'. split; [exact Hrun |].
        now rewrite <- app_assoc in Hupd.
    + unfold delete_prop at 1.
      set (h1 := {| next := next h; objs := _ |}).
      assert (Hh1 : updates h l (pre ++ rest)%list h1).
      { repeat split.
        - unfold h1, store. cbn [objs]. rewrite Nat.eqb_refl, Hobj.
          rewrite (delete_app_new pre _ k Hnew). cbn [Obj.delete].
          now rewrite String.eqb_refl.
        - intros l' Hl'. unfold h1, store. cbn [objs].
          apply Nat.eqb_neq in Hl'. now rewrite Hl'. }
      destruct (IH pre h1) as (h' & Hrun & Hupd).
      * eapply well_formed_app_drop; eauto.
      * apply Hh1.
      * exists h'. split; [exact Hrun |].
        eapply updates_trans; eauto.
Qed.

Lemma prune_run (l : loc) (h : heap) :
  well_formed (objs h l) ->
  exists h',
    forEach (fun k =>
               v <- get_prop l k ;;
               if negb (truthy v) then delete_prop l k else ret tt)
            (Obj.keys (objs h l)) h
    = Ok (tt, h')
    /\ updates h l (kept (objs h l)) h'.
Proof. intros Hwf. now apply (prune_from l (objs h l) [] h). Qed.

Lemma bind_new_object {B} (fields : list (string * pval)) (k : loc -> M B)
      (h : heap) :
  (x <- new_object fields ;; k x) h = k (next h) (alloc h (Obj.assign [] fields)).
Proof. reflexivity. Qed.

Lemma bind_spread {B} (src : loc) (fields : list (string * pval))
      (k : loc -> M B) (h : heap) :
  (x <- spread src fields ;; k x) h
  = k (next h) (alloc h (Obj.assign (objs h src) fields)).
Proof. reflexivity. Qed.

Lemma bind_ret {A B} (a : A) (k : A -> M B) (h : heap) :
  (x <- ret a ;; k x) h = k a h.
Proof. reflexivity. Qed.

Lemma bind_Object_keys {B} (l : loc) (k : list string -> M B) (h : heap) :
  (x <- Object_keys l ;; k x) h = k (Obj.keys (objs h l)) h.
Proof. reflexivity. Qed.

(** One allocation of the builder: the new object is named, and the heap
    after it too.  A copy reads the object that was allocated last. *)
Ltac step_alloc o h' :=
  first [rewrite bind_new_object | rewrite bind_spread];
  try match goal with
      | hh := alloc ?h0 ?o0 |- context [objs ?hh' (next ?h0)] =>
          constr_eq hh hh';
          change (objs hh (next h0)) with (objs (alloc h0 o0) (next h0));
          rewrite (objs_alloc h0 o0)
      end;
  match goal with
  | |- context [alloc ?h0 ?x] => set (o := x); set (h' := alloc h0 o)
  end.

Section BuilderRun.
Context `{Utils}.
Variables (entry : Entry.t) (settings : Settings.t).

Lemma well_formed_assembled : well_formed (assembled entry settings).
Proof.
  unfold well_formed, assembled, base_fields, arxiv_fields, mode_fields,
    last_fields.
  destruct (goodMode settings), (present (Entry.id entry));
    cbn [Obj.keys map fst app];
    repeat (constructor; [cbn [In]; intuition discriminate |]);
    constructor.
Qed.

(** The builder does not throw.  It returns a new object that holds the
    assembled properties whose value is truthy, and leaves the objects that
    were in the heap as they were. *)
Lemma buildPairing_run (h : heap) :
  exists l h',
    buildPairing entry settings h
    = Ok ({| Built.type := Entry.type entry;
             Built.pairing := l;
             Built.key := entryKey entry;
             Built.wget := wget_command entry settings |}, h')
    /\ objs h' l = kept (assembled entry settings)
    /\ next h <= l < next h'
    /\ extends h h'.
Proof.
  assert (Hfinish : forall l h3,
             next h <= l < next h3 -> extends h h3 ->
             objs h3 l = assembled entry settings ->
             exists h',
               (keys <- Object_keys l ;;
                forEach (fun k =>
                           v <- get_prop l k ;;
                           if negb (truthy v) then delete_prop l k else ret tt)
                        keys ;;;
                ret {| Built.type := Entry.type entry;
                       Built.pairing := l;
                       Built.key := entryKey entry;
                       Built.wget := wget_command entry settings |}) h3
               = Ok ({| Built.type := Entry.type entry;
                        Built.pairing := l;
                        Built.key := entryKey entry;
                        Built.wget := wget_command entry settings |}, h')
               /\ objs h' l = kept (assembled entry settings)
               /\ next h <= l < next h'
               /\ extends h h').
  { intros l h3 Hl Hext Hobj.
    destruct (prune_run l h3) as (h' & Hrun & Hupd).
    { rewrite Hobj. apply well_formed_assembled. }
    exists h'. rewrite bind_Object_keys. unfold bind at 1. rewrite Hrun.
    rewrite Hobj in Hupd.
    split; [reflexivity |].
    split; [apply Hupd |].
    split; [destruct Hupd as (Hn & _); lia |].
    apply (updates_extends h3 h' l (kept (assembled entry settings)) h Hext);
      [lia | exact Hupd]. }
  unfold buildPairing.
  step_alloc o1 h1.
  destruct (present (Entry.id entry)) eqn:Hid;
    destruct (Settings.mode settings =? "biblatex") eqn:Hmode.
  - step_alloc o2 h2. step_alloc o3 h3. step_alloc o4 h4.
    exists (next h3). apply Hfinish.
    + unfold h4, h3, h2, h1. cbn [next alloc]. lia.
    + repeat (eapply extends_trans; [| apply extends_alloc]).
      apply extends_refl.
    + unfold h4. rewrite objs_alloc.
      unfold assembled, base_fields, arxiv_fields, mode_fields, last_fields,
        journalValue, goodMode. rewrite Hid, Hmode. reflexivity.
  - step_alloc o2 h2. step_alloc o3 h3. step_alloc o4 h4.
    exists (next h3). apply Hfinish.
    + unfold h4, h3, h2, h1. cbn [next alloc]. lia.
    + repeat (eapply extends_trans; [| apply extends_alloc]).
      apply extends_refl.
    + unfold h4. rewrite objs_alloc.
      unfold assembled, base_fields, arxiv_fields, mode_fields, last_fields,
        journalValue, goodMode. rewrite Hid, Hmode. reflexivity.
  - rewrite bind_ret. step_alloc o3 h3. step_alloc o4 h4.
    exists (next h3). apply Hfinish.
    + unfold h4, h3, h1. cbn [next alloc]. lia.
    + repeat (eapply extends_trans; [| apply extends_alloc]).
      apply extends_refl.
    + unfold h4. rewrite objs_alloc.
      unfold assembled, base_fields, arxiv_fields, mode_fields, last_fields,
        journalValue, goodMode. rewrite Hid, Hmode. reflexivity.
  - rewrite bind_ret. step_alloc o3 h3. step_alloc o4 h4.
    exists (next h3). apply Hfinish.
    + unfold h4, h3, h1. cbn [next alloc]. lia.
    + repeat (eapply extends_trans; [| apply extends_alloc]).
      apply extends_refl.
    + unfold h4. rewrite objs_alloc.
      unfold assembled, base_fields, arxiv_fields, mode_fields, last_fields,
        journalValue, goodMode. rewrite Hid, Hmode. reflexivity.
Qed.

End BuilderRun.

(* ================================================================== *)
(** ** The text of a rendered entry *)

Lemma textContent_app (f g : fragment) :
  textContent (f ++ g)%list = textContent f ++ textContent g.
Proof.
  induction f as [|v f IH]; simpl; [reflexivity |].
  now rewrite IH, append_assoc.
Qed.

Lemma textContent_row (m : nat) (kv : string * pval) :
  textContent (row m kv) = row_text m kv.
Proof.
  unfold row, row_text, row_prefix. cbn [textContent text_of].
  now rewrite append_nil_r, !append_assoc.
Qed.

Lemma textContent_rows (m : nat) (o : Pairing) :
  textContent (concat (map (row m) o)) = rows_text m o.
Proof.
  induction o as [|kv o IH]; [reflexivity |].
  cbn [map concat rows_text].
  now rewrite textContent_app, textContent_row, IH.
Qed.

Lemma textContent_rendered (type key : string) (o : Pairing) :
  textContent (rendered type o key) = entry_text type o key.
Proof.
  unfold rendered, entry_text. cbn [textContent text_of].
  rewrite textContent_app, textContent_rows. reflexivity.
Qed.

(** The renderer on a well-formed object. *)
Lemma formatEntry_spec (type key : string) (l : loc) (h : heap) :
  abstract_is_text (objs h l) = true ->
  well_formed (objs h l) ->
  exists h',
    formatEntry type l key h = Ok (rendered type (padded (objs h l)) key, h')
    /\ updates h l (padded (objs h l)) h'.
Proof.
  intros Htyped Hwf.
  destruct (formatEntry_run type key l h Htyped) as (h' & Hrun & Hupd).
  exists h'. split; [| exact Hupd].
  rewrite Hrun. unfold rendered.
  rewrite longest_padded, <- (keys_padded (objs h l)).
  now rewrite (map_get_keys _ (row (longest (objs h l))) (well_formed_padded _ Hwf)).
Qed.

Lemma row_prefix_length (m : nat) (k : string) :
  String.length k <= m -> String.length (row_prefix m k) = m + 6.
Proof.
  intros Hk. unfold row_prefix.
  rewrite !length_append, length_spaces. simpl. lia.
Qed.

Lemma row_text_equals_sign (m : nat) (kv : string * pval) :
  String.length (fst kv) <= m ->
  String.get (2 + m + 1) (row_text m kv) = Some "="%char.
Proof.
  intros Hk. unfold row_text, row_prefix.
  set (v := text_of (snd kv) ++ "}," ++ nl).
  replace ((("  " ++ fst kv ++ spaces (m - String.length (fst kv)) ++ " = {") ++ v))
    with (("  " ++ fst kv ++ spaces (m - String.length (fst kv)) ++ " ")
            ++ String "="%char (" {" ++ v)).
  - replace (2 + m + 1)
      with (String.length ("  " ++ fst kv ++ spaces (m - String.length (fst kv)) ++ " ")).
    + apply get_append_at.
    + rewrite !length_append, length_spaces. simpl. lia.
  - rewrite !append_assoc. reflexivity.
Qed.

(* ================================================================== *)
(** ** Indentation of a text *)

Lemma spaces_add (a b : nat) : spaces (a + b) = spaces a ++ spaces b.
Proof. induction a as [|a IH]; simpl; [reflexivity | now rewrite IH]. Qed.

Lemma replace_newlines_app (r a b : string) :
  replace_newlines r (a ++ b) = replace_newlines r a ++ replace_newlines r b.
Proof.
  induction a as [|c a IH]; simpl; [reflexivity |].
  destruct (Ascii.eqb c newline); rewrite IH; [now rewrite append_assoc | reflexivity].
Qed.

Lemma indent_lines_twice (n : nat) (s : string) :
  indent_lines n (indent_lines n s) = indent_lines (n + n) s.
Proof.
  unfold indent_lines.
  assert (Hr : replace_newlines (nl ++ spaces n) (nl ++ spaces n)
               = nl ++ spaces (n + n)).
  { change (replace_newlines (nl ++ spaces n) (nl ++ spaces n))
      with ((nl ++ spaces n) ++ replace_newlines (nl ++ spaces n) (spaces n)).
    rewrite (replace_newlines_none _ (spaces n) (has_newline_spaces n)).
    now rewrite spaces_add, !append_assoc. }
  set (r := nl ++ spaces n) in *. set (r2 := nl ++ spaces (n + n)) in *.
  induction s as [|c s IH]; cbn [replace_newlines]; [reflexivity |].
  destruct (Ascii.eqb c newline) eqn:Hc.
  - now rewrite replace_newlines_app, IH, Hr.
  - cbn [replace_newlines]. now rewrite Hc, IH.
Qed.

Lemma replace_newlines_length (r s : string) :
  1 <= String.length r -> String.length s <= String.length (replace_newlines r s).
Proof.
  intros Hr. induction s as [|c s IH]; simpl; [lia |].
  destruct (Ascii.eqb c newline); [rewrite length_append | simpl]; lia.
Qed.

Lemma replace_newlines_longer (r s : string) :
  1 < String.length r -> has_newline s = true ->
  String.length s < String.length (replace_newlines r s).
Proof.
  intros Hr. induction s as [|c s IH]; simpl; [discriminate |].
  destruct (Ascii.eqb c newline); simpl.
  - intros _. rewrite length_append.
    pose proof (replace_newlines_length r s). lia.
  - intros Hs. specialize (IH Hs). lia.
Qed.

Lemma has_newline_indent (n : nat) (s : string) :
  has_newline (indent_lines n s) = has_newline s.
Proof.
  unfold indent_lines. induction s as [|c s IH]; [reflexivity |].
  cbn [replace_newlines has_newline].
  destruct (Ascii.eqb c newline) eqn:Hc.
  - reflexivity.
  - cbn [has_newline]. now rewrite Hc, IH.
Qed.

Lemma indent_lines_changes (n : nat) (s : string) :
  0 < n -> has_newline s = true ->
  indent_lines n (indent_lines n s) <> indent_lines n s.
Proof.
  intros Hn Hs E.
  assert (Hlt : String.length (indent_lines n s)
                < String.length (indent_lines n (indent_lines n s))).
  { apply replace_newlines_longer.
    - rewrite length_append, length_spaces. simpl. lia.
    - now rewrite has_newline_indent. }
  rewrite E in Hlt. lia.
Qed.

Lemma lines_nonempty (s : string) : Reparse.lines s <> [].
Proof.
  induction s as [|c s IH]; simpl; [discriminate |].
  destruct (Ascii.eqb c newline); [discriminate |].
  destruct (Reparse.lines s); discriminate.
Qed.

(** Every line of the text but the first gets [n] spaces in front. *)
Lemma indent_lines_concat (n : nat) (s : string) :
  indent_lines n s = String.concat (nl ++ spaces n) (Reparse.lines s).
Proof.
  unfold indent_lines. induction s as [|c s IH]; [reflexivity |].
  cbn [replace_newlines Reparse.lines].
  pose proof (lines_nonempty s) as Hne.
  destruct (Ascii.eqb c newline).
  - rewrite IH. destruct (Reparse.lines s) as [|x xs]; [congruence | reflexivity].
  - rewrite IH. destruct (Reparse.lines s) as [|x xs]; [congruence |].
    destruct xs; reflexivity.
Qed.

(* ================================================================== *)
(** ** What the renderer does to the object *)

Lemma padded_abstract (o : Pairing) (s : string) :
  Obj.get o "abstract" = PStr s -> s <> "" ->
  Obj.get (padded o) "abstract" = PStr (indent_lines (longest o + 6) s).
Proof.
  intros Hget Hs. unfold padded. rewrite Hget. cbn [truthy text_of].
  apply String.eqb_neq in Hs. rewrite Hs. cbn [negb].
  apply get_set_same.
Qed.

Lemma padded_other (o : Pairing) (k : string) :
  k <> "abstract" -> Obj.get (padded o) k = Obj.get o k.
Proof.
  intros Hk. unfold padded.
  destruct (truthy (Obj.get o "abstract")); [| reflexivity].
  now apply get_set_other.
Qed.

Lemma abstract_is_text_str (o : Pairing) (s : string) :
  Obj.get o "abstract" = PStr s -> abstract_is_text o = true.
Proof. intros E. unfold abstract_is_text. now rewrite E. Qed.

Lemma longest_attained (o : Pairing) :
  o <> [] -> exists k, In k (Obj.keys o) /\ String.length k = longest o.
Proof.
  induction o as [|[k v] o IH]; [congruence |]. intros _.
  destruct o as [|kv o].
  - exists k. split; [now left | simpl; lia].
  - destruct IH as (k' & Hin & Hlen); [discriminate |].
    change (longest ((k, v) :: kv :: o))
      with (Nat.max (String.length k) (longest (kv :: o))).
    destruct (Nat.max_spec (String.length k) (longest (kv :: o))) as [[_ E]|[_ E]];
      rewrite E.
    + exists k'. split; [now right | exact Hlen].
    + exists k. split; [now left | reflexivity].
Qed.

Ltac solve_well_formed :=
  unfold well_formed; cbn [Obj.keys map fst];
  repeat (constructor; [cbn [In]; intuition discriminate |]); constructor.

(* ================================================================== *)
(** ** The renderer: alignment *)

(** C3. For every non-empty pairing the renderer emits the header line
    [@type{key,], then one row per property, in the order of the object, of
    the form [  key padding = {value},], and closes with [}].  With [m] the
    length of the longest key, the equals sign of every row is the character
    at offset [2 + m + 1] of the row, after the indent, the key and the
    padding.  When the keys have the lengths 3, 7 and 10 the offset is
    [2 + 10 + 1]. *)
Theorem formatEntry_aligned (type key : string) (l : loc) (h : heap) :
  objs h l <> [] ->
  well_formed (objs h l) ->
  abstract_is_text (objs h l) = true ->
  exists f h',
    formatEntry type l key h = Ok (f, h')
    /\ Obj.keys (objs h' l) = Obj.keys (objs h l)
    /\ (forall k, In k (Obj.keys (objs h l)) ->
          String.length k <= longest (objs h l))
    /\ (exists k, In k (Obj.keys (objs h l))
                  /\ String.length k = longest (objs h l))
    /\ textContent f
       = ("@" ++ type ++ "{" ++ key ++ "," ++ nl)
           ++ rows_text (longest (objs h l)) (objs h' l) ++ "}"
    /\ (forall kv, In kv (objs h' l) ->
          row_text (longest (objs h l)) kv
          = "  " ++ fst kv
                 ++ spaces (longest (objs h l) - String.length (fst kv))
                 ++ " = {" ++ text_of (snd kv) ++ "}," ++ nl
          /\ String.length
               ("  " ++ fst kv
                     ++ spaces (longest (objs h l) - String.length (fst kv)))
             = 2 + longest (objs h l)
          /\ String.get (2 + longest (objs h l) + 1)
                        (row_text (longest (objs h l)) kv)
             = Some "="%char)
    /\ ((forall k, In k (Obj.keys (objs h l)) ->
           In (String.length k) [3; 7; 10]) ->
        (exists k, In k (Obj.keys (objs h l)) /\ String.length k = 10) ->
        forall kv, In kv (objs h' l) ->
          String.get (2 + 10 + 1) (row_text (longest (objs h l)) kv)
          = Some "="%char).
Proof.
  intros Hne Hwf Htyped.
  destruct (formatEntry_spec type key l h Htyped Hwf) as (h' & Hrun & Hupd).
  destruct Hupd as (_ & Hobj & _).
  set (o := objs h l) in *. set (m := longest o).
  assert (Hle : forall k, In k (Obj.keys o) -> String.length k <= m)
    by (intros k; apply longest_ge).
  assert (Hin : forall kv, In kv (objs h' l) -> String.length (fst kv) <= m).
  { intros kv Hkv. apply Hle. rewrite <- (keys_padded o), <- Hobj.
    unfold Obj.keys. now apply in_map. }
  exists (rendered type (padded o) key), h'.
  split; [exact Hrun |].
  split; [rewrite Hobj; apply keys_padded |].
  split; [exact Hle |].
  split; [apply longest_attained; exact Hne |].
  split.
  { rewrite textContent_rendered. unfold entry_text, header.
    now rewrite longest_padded, Hobj. }
  split.
  { intros kv Hkv. specialize (Hin kv Hkv). split; [| split].
    - unfold row_text, row_prefix. now rewrite !append_assoc.
    - rewrite !length_append, length_spaces. simpl. lia.
    - now apply row_text_equals_sign. }
  intros Hlens (k10 & Hk10 & Hlen10) kv Hkv.
  assert (Hm : m = 10).
  { destruct (longest_attained o Hne) as (k & Hk & Hlen).
    specialize (Hlens k Hk). specialize (Hle k10 Hk10).
    fold m in Hlen. cbn [In] in Hlens. lia. }
  rewrite <- Hm. apply row_text_equals_sign. now apply Hin.
Qed.

Lemma formatEntry_aligned_three_keys :
  exists f h',
    formatEntry "article" 0 "Doe2020" (heap_of three_keys) = Ok (f, h')
    /\ forall kv, In kv (objs h' 0) ->
         String.get 13 (row_text (longest three_keys) kv) = Some "="%char.
Proof.
  destruct (formatEntry_aligned "article" "Doe2020" 0 (heap_of three_keys))
    as (f & h' & Hrun & _ & _ & _ & _ & _ & Hcol).
  - discriminate.
  - solve_well_formed.
  - reflexivity.
  - exists f, h'. split; [exact Hrun |].
    apply Hcol.
    + intros k Hk. cbn in Hk.
      destruct Hk as [<- | [<- | [<- | []]]]; cbn; auto.
    + exists "eprinttype". split; [cbn; auto | reflexivity].
Defined.

(* ================================================================== *)
(** ** The renderer: multi-line values *)

(** C4, as the code has it.  Only the value under the key [abstract] is
    indented: when it is a non-empty string, every line break in it is
    replaced by a line break followed by [m + 6] spaces, [m] being the length
    of the longest key, so that every line after the first starts at the
    column where the value starts, after [  key padding = {].  The value
    of every other key is shown as it is. *)
Theorem formatEntry_indents_abstract (type key : string) (l : loc) (h : heap)
        (s : string) :
  well_formed (objs h l) ->
  Obj.get (objs h l) "abstract" = PStr s ->
  s <> "" ->
  exists f h',
    formatEntry type l key h = Ok (f, h')
    /\ Obj.get (objs h' l) "abstract"
       = PStr (replace_newlines (nl ++ spaces (longest (objs h l) + 6)) s)
    /\ replace_newlines (nl ++ spaces (longest (objs h l) + 6)) s
       = String.concat (nl ++ spaces (longest (objs h l) + 6)) (Reparse.lines s)
    /\ String.length (row_prefix (longest (objs h l)) "abstract")
       = longest (objs h l) + 6
    /\ (forall k, k <> "abstract" ->
          Obj.get (objs h' l) k = Obj.get (objs h l) k)
    /\ textContent f
       = header type key ++ rows_text (longest (objs h l)) (objs h' l) ++ "}".
Proof.
  intros Hwf Hget Hs.
  destruct (formatEntry_spec type key l h (abstract_is_text_str _ _ Hget) Hwf)
    as (h' & Hrun & _ & Hobj & _).
  exists (rendered type (padded (objs h l)) key), h'.
  split; [exact Hrun |].
  split; [rewrite Hobj; now apply padded_abstract |].
  split; [apply indent_lines_concat |].
  split.
  { apply row_prefix_length, longest_ge, get_truthy_in.
    rewrite Hget. cbn [truthy]. apply String.eqb_neq in Hs. now rewrite Hs. }
  split; [intros k Hk; rewrite Hobj; now apply padded_other |].
  rewrite textContent_rendered. unfold entry_text.
  now rewrite longest_padded, Hobj.
Qed.

Lemma formatEntry_indents_abstract_sample :
  exists f h',
    formatEntry "article" 0 "Doe2020" (heap_of two_line_abstract) = Ok (f, h')
    /\ Obj.get (objs h' 0) "abstract"
       = PStr (replace_newlines (nl ++ spaces (8 + 6)) ("a" ++ nl ++ "b")).
Proof.
  destruct (formatEntry_indents_abstract "article" "Doe2020" 0
              (heap_of two_line_abstract) ("a" ++ nl ++ "b"))
    as (f & h' & Hrun & Habs & _).
  - solve_well_formed.
  - reflexivity.
  - discriminate.
  - exists f, h'. split; [exact Hrun | exact Habs].
Defined.

(** C4 fails as stated: a title of two lines is shown with its line break
    as it is, and no space after it. *)
Lemma multiline_title_not_indented :
  exists f h',
    formatEntry "article" 0 "Doe2020" (heap_of two_line_title) = Ok (f, h')
    /\ textContent f
       = "@article{Doe2020," ++ nl ++ "  title = {a" ++ nl ++ "b}," ++ nl ++ "}"
    /\ Obj.get (objs h' 0) "title"
       <> PStr (replace_newlines (nl ++ spaces (longest two_line_title + 6))
                                 ("a" ++ nl ++ "b")).
Proof.
  destruct (formatEntry_spec "article" "Doe2020" 0 (heap_of two_line_title))
    as (h' & Hrun & _ & Hobj & _); [reflexivity | solve_well_formed |].
  eexists. exists h'. split; [exact Hrun |].
  split; [reflexivity |].
  rewrite Hobj. cbv. discriminate.
Qed.

(* ================================================================== *)
(** ** The renderer writes to the object it is given *)

Lemma indent_lines_nonempty (n : nat) (s : string) :
  s <> "" -> indent_lines n s <> "".
Proof.
  intros Hs E.
  assert (Hlen : String.length s <= String.length (indent_lines n s)).
  { apply replace_newlines_length. rewrite length_append. simpl. lia. }
  rewrite E in Hlen. destruct s; [congruence | simpl in Hlen; lia].
Qed.

(** C10. [formatEntry] writes to its argument.  When the pairing has a
    non-empty abstract, the call overwrites it in the caller's object with
    the padded text, every line break followed by [maxKeyLength + 6] spaces.
    Every other property, the order of the keys and every other object stay
    as they were.  A second call on the same object pads the padded text
    again, which changes it as soon as the abstract has a line break. *)
Theorem formatEntry_mutates_pairing (type key : string) (l : loc) (h : heap)
        (s : string) :
  well_formed (objs h l) ->
  Obj.get (objs h l) "abstract" = PStr s ->
  s <> "" ->
  exists f h' f2 h'',
    formatEntry type l key h = Ok (f, h')
    /\ Obj.get (objs h' l) "abstract"
       = PStr (replace_newlines (nl ++ spaces (longest (objs h l) + 6)) s)
    /\ (forall k, k <> "abstract" ->
          Obj.get (objs h' l) k = Obj.get (objs h l) k)
    /\ Obj.keys (objs h' l) = Obj.keys (objs h l)
    /\ (forall l', l' <> l -> objs h' l' = objs h l')
    /\ formatEntry type l key h' = Ok (f2, h'')
    /\ Obj.get (objs h'' l) "abstract"
       = PStr (replace_newlines (nl ++ spaces (longest (objs h l) + 6))
                 (replace_newlines (nl ++ spaces (longest (objs h l) + 6)) s))
    /\ (has_newline s = true ->
        Obj.get (objs h'' l) "abstract" <> Obj.get (objs h' l) "abstract").
Proof.
  intros Hwf Hget Hs.
  destruct (formatEntry_spec type key l h (abstract_is_text_str _ _ Hget) Hwf)
    as (h' & Hrun & _ & Hobj & Hframe).
  set (o := objs h l) in *. set (n := longest o + 6).
  assert (Hget' : Obj.get (objs h' l) "abstract" = PStr (indent_lines n s))
    by (rewrite Hobj; now apply padded_abstract).
  assert (Hwf' : well_formed (objs h' l))
    by (rewrite Hobj; now apply well_formed_padded).
  destruct (formatEntry_spec type key l h' (abstract_is_text_str _ _ Hget') Hwf')
    as (h'' & Hrun' & _ & Hobj' & _).
  assert (Hget'' : Obj.get (objs h'' l) "abstract"
                   = PStr (indent_lines n (indent_lines n s))).
  { rewrite Hobj'.
    rewrite (padded_abstract _ _ Hget' (indent_lines_nonempty n s Hs)).
    now rewrite Hobj, longest_padded. }
  exists (rendered type (padded o) key), h',
         (rendered type (padded (objs h' l)) key), h''.
  split; [exact Hrun |].
  split; [exact Hget' |].
  split; [intros k Hk; rewrite Hobj; now apply padded_other |].
  split; [rewrite Hobj; apply keys_padded |].
  split; [exact Hframe |].
  split; [exact Hrun' |].
  split; [exact Hget'' |].
  intros Hnl. rewrite Hget'', Hget'. intros E. injection E as E.
  revert E. apply indent_lines_changes; [unfold n; lia | exact Hnl].
Qed.

Lemma formatEntry_mutates_sample :
  exists f h' f2 h'',
    formatEntry "article" 0 "Doe2020" (heap_of two_line_abstract) = Ok (f, h')
    /\ formatEntry "article" 0 "Doe2020" h' = Ok (f2, h'')
    /\ Obj.get (objs h'' 0) "abstract" <> Obj.get (objs h' 0) "abstract".
Proof.
  destruct (formatEntry_mutates_pairing "article" "Doe2020" 0
              (heap_of two_line_abstract) ("a" ++ nl ++ "b"))
    as (f & h' & f2 & h'' & Hrun & _ & _ & _ & _ & Hrun' & _ & Hdiff).
  - solve_well_formed.
  - reflexivity.
  - discriminate.
  - exists f, h', f2, h''. split; [exact Hrun |]. split; [exact Hrun' |].
    apply Hdiff. reflexivity.
Defined.

(* ================================================================== *)
(** ** The object that the builder returns *)

Lemma keys_kept_incl (o : Pairing) (k : string) :
  In k (Obj.keys (kept o)) -> In k (Obj.keys o).
Proof.
  unfold Obj.keys, kept. intros Hin.
  apply in_map_iff in Hin as (kv & <- & Hkv).
  apply filter_In in Hkv as [Hkv _]. now apply in_map.
Qed.

Lemma well_formed_kept (o : Pairing) : well_formed o -> well_formed (kept o).
Proof.
  unfold well_formed.
  induction o as [|[k v] o IH]; [constructor |].
  intros Hnd. inversion Hnd as [|? ? Hnotin Hnd']; subst.
  unfold kept. cbn [filter snd]. fold (kept o).
  destruct (truthy v); [| now apply IH].
  cbn [Obj.keys map fst]. constructor; [| now apply IH].
  intros Hin. apply Hnotin. now apply keys_kept_incl.
Qed.

Lemma get_kept (o : Pairing) (k : string) :
  well_formed o ->
  Obj.get (kept o) k
  = if truthy (Obj.get o k) then Obj.get o k else PUndef.
Proof.
  unfold well_formed.
  induction o as [|[k' v'] o IH]; [reflexivity |].
  intros Hnd. inversion Hnd as [|? ? Hnotin Hnd']; subst.
  unfold kept. cbn [filter snd Obj.get]. fold (kept o).
  destruct (String.eqb_spec k' k) as [->|Hne].
  - destruct (truthy v') eqn:Hv.
    + cbn [Obj.get]. now rewrite String.eqb_refl.
    + apply get_not_in. intros Hin. apply Hnotin. now apply keys_kept_incl.
  - destruct (truthy v') eqn:Hv.
    + cbn [Obj.get]. apply String.eqb_neq in Hne. rewrite Hne. now apply IH.
    + now apply IH.
Qed.

Lemma kept_truthy (o : Pairing) (kv : string * pval) :
  In kv (kept o) -> truthy (snd kv) = true.
Proof. unfold kept. intros Hin. now apply filter_In in Hin. Qed.

(** Reading one key of the assembled pairing. *)
Ltac read_assembled :=
  unfold assembled, base_fields, arxiv_fields, mode_fields, last_fields;
  match goal with
  | |- context [goodMode ?s] => destruct (goodMode s) eqn:?
  end;
  match goal with
  | |- context [present (Entry.id ?e)] => destruct (present (Entry.id e)) eqn:?
  end;
  try reflexivity.

Section Pipeline.
Context `{Utils}.
Variables (entry : Entry.t) (settings : Settings.t).

Lemma get_assembled_abstract :
  Obj.get (assembled entry settings) "abstract"
  = if Settings.includeAbstract settings
    then of_str (Entry.abstract entry) else PNull.
Proof. read_assembled. Qed.

Lemma abstract_is_text_built :
  abstract_is_text (kept (assembled entry settings)) = true.
Proof.
  unfold abstract_is_text.
  rewrite get_kept by apply well_formed_assembled.
  rewrite get_assembled_abstract.
  destruct (Settings.includeAbstract settings); [| reflexivity].
  destruct (Entry.abstract entry) as [s|]; cbn [of_str truthy]; [| reflexivity].
  destruct (negb (s =? "")); reflexivity.
Qed.

Lemma formattedEntry_run (h : heap) :
  exists l h',
    formattedEntry entry settings h = Ok (shownEntry entry settings, h')
    /\ objs h' l = padded (kept (assembled entry settings))
    /\ next h <= l
    /\ extends h h'.
Proof.
  destruct (buildPairing_run entry settings h) as (l & h1 & Hrun & Hobj & Hl & Hext).
  destruct (formatEntry_spec (Entry.type entry) (entryKey entry) l h1)
    as (h' & Hrun' & Hupd).
  { rewrite Hobj. apply abstract_is_text_built. }
  { rewrite Hobj. apply well_formed_kept, well_formed_assembled. }
  assert (Hext' : extends h h').
  { apply (updates_extends h1 h' l (padded (objs h1 l)) h Hext);
      [lia | exact Hupd]. }
  exists l, h'. unfold formattedEntry, bind. rewrite Hrun.
  cbn [Built.type Built.pairing Built.key]. rewrite Hrun'.
  destruct Hupd as (_ & Hobj' & _). rewrite Hobj', Hobj.
  split; [reflexivity |].
  split; [reflexivity |].
  split; [lia | exact Hext'].
Qed.

End Pipeline.

(* ================================================================== *)
(** ** The pipeline is a function of the entry and the settings *)

(** C9. Building a pairing and rendering it is deterministic and can be
    repeated: on the same entry and settings, from any heap, it does not
    throw and it returns the same fragment; a second run, on the heap that
    the first one left, returns that fragment again; the objects that were
    in the heap are not touched. *)
Theorem formattedEntry_repeatable `{Utils} (entry : Entry.t)
        (settings : Settings.t) (h : heap) :
  exists f h1 h2,
    formattedEntry entry settings h = Ok (f, h1)
    /\ formattedEntry entry settings h1 = Ok (f, h2)
    /\ (forall h0, exists h0', formattedEntry entry settings h0 = Ok (f, h0'))
    /\ extends h h1
    /\ extends h1 h2.
Proof.
  destruct (formattedEntry_run entry settings h) as (l1 & h1 & Hrun1 & _ & _ & Hext1).
  destruct (formattedEntry_run entry settings h1) as (l2 & h2 & Hrun2 & _ & _ & Hext2).
  exists (shownEntry entry settings), h1, h2.
  repeat split; try assumption; try apply Hext1; try apply Hext2.
  intros h0.
  destruct (formattedEntry_run entry settings h0) as (l0 & h0' & Hrun0 & _).
  now exists h0'.
Qed.

(* ================================================================== *)
(** ** The key and the author list *)

Lemma last_elt_last (l : list string) :
  match last_elt l with Some s => s | None => "" end = last l "".
Proof.
  induction l as [|x l IH]; [reflexivity |].
  destruct l as [|y l]; [reflexivity | exact IH].
Qed.

(** C1, as the code has it.  The key is the result of [removeAccents] on the
    surnames, in the order of the authors and with nothing between them,
    followed by the first four characters of the date: the year is stripped
    of its diacritics too.  For no author the key is the stripped year and
    the author list is empty.  With the functions of the spec, the authors
    Jane Doe and John Dew and the date 2020-01-01 give the key [DoeDew2020]
    and the list [Doe, Jane and Dew, John]. *)
Theorem joinAuthorsGetKey_key :
  (forall (U : Utils) (authors : list string) (date : string),
      key (joinAuthorsGetKey authors date)
      = removeAccents (String.concat "" (map surname authors) ++ slice0 4 date)
      /\ key (joinAuthorsGetKey [] date) = removeAccents (slice0 4 date)
      /\ authorList (joinAuthorsGetKey [] date) = "")
  /\ @joinAuthorsGetKey spec_utils ["Jane Doe"; "John Dew"] "2020-01-01"
     = {| key := "DoeDew2020"; authorList := "Doe, Jane and Dew, John" |}.
Proof.
  split; [| reflexivity].
  intros U authors date. split; [| split; reflexivity].
  unfold joinAuthorsGetKey. cbn [key]. unfold join.
  rewrite !map_map. f_equal. f_equal. f_equal.
  apply map_ext. intros a. apply last_elt_last.
Qed.

(** C1 fails as stated: for no author and a date that starts with an
    accented letter, the key is not the year. *)
Lemma key_of_accented_year :
  key (@joinAuthorsGetKey spec_utils [] accented_date) = "e202"
  /\ key (@joinAuthorsGetKey spec_utils [] accented_date)
     <> slice0 4 accented_date.
Proof. split; [reflexivity | cbv; discriminate]. Qed.

(* ================================================================== *)
(** ** The fields of the built pairing *)

Lemma kept_absent (o : Pairing) (k : string) :
  well_formed o -> truthy (Obj.get o k) = false -> ~ In k (Obj.keys (kept o)).
Proof.
  intros Hwf Hfalse Hin. unfold Obj.keys in Hin.
  apply in_map_iff in Hin as ([k' v] & Hk & Hkv). simpl in Hk. subst k'.
  unfold kept in Hkv. apply filter_In in Hkv as [Hkv Hv]. simpl in Hv.
  rewrite (get_in o k v Hwf Hkv) in Hfalse. congruence.
Qed.

Lemma present_toString (o : option string) (s : string) :
  o = Some s -> s <> "" -> present o = true /\ toString o = s.
Proof.
  intros -> Hs. split; [| reflexivity].
  unfold present. apply String.eqb_neq in Hs. now rewrite Hs.
Qed.

Lemma truthy_append (a b : string) : a <> "" -> truthy (PStr (a ++ b)) = true.
Proof. intros Ha. destruct a; [congruence | reflexivity]. Qed.

(** Reading one key of the assembled pairing when the mode is known. *)
Ltac read_assembled_in E :=
  unfold assembled, base_fields, arxiv_fields, mode_fields, last_fields;
  rewrite E;
  match goal with
  | |- context [present (Entry.id ?e)] => destruct (present (Entry.id e))
  end;
  reflexivity.

Section Fields.
Context `{Utils}.
Variables (entry : Entry.t) (settings : Settings.t).

Lemma goodMode_true : Settings.mode settings = "biblatex" -> goodMode settings = true.
Proof. intros E. unfold goodMode. rewrite E. reflexivity. Qed.

Lemma goodMode_false : Settings.mode settings <> "biblatex" -> goodMode settings = false.
Proof. intros E. unfold goodMode. now apply String.eqb_neq. Qed.

(** The builder, with the object it returns read through its location. *)
Lemma buildPairing_built (h : heap) :
  exists b h',
    buildPairing entry settings h = Ok (b, h')
    /\ objs h' (Built.pairing b) = kept (assembled entry settings)
    /\ Built.type b = Entry.type entry
    /\ Built.key b = entryKey entry
    /\ Built.wget b = wget_command entry settings
    /\ extends h h'.
Proof.
  destruct (buildPairing_run entry settings h) as (l & h' & Hrun & Hobj & _ & Hext).
  eexists. exists h'. split; [exact Hrun |].
  cbn [Built.pairing Built.type Built.key Built.wget]. auto.
Qed.

Lemma get_built (k : string) :
  Obj.get (kept (assembled entry settings)) k
  = if truthy (Obj.get (assembled entry settings) k)
    then Obj.get (assembled entry settings) k else PUndef.
Proof. apply get_kept, well_formed_assembled. Qed.

Lemma get_assembled_note_bad :
  goodMode settings = false ->
  Obj.get (assembled entry settings) "note" = noteValue entry.
Proof. intros E. read_assembled_in E. Qed.

Lemma get_assembled_note_good :
  goodMode settings = true ->
  Obj.get (assembled entry settings) "note" = PUndef.
Proof. intros E. read_assembled_in E. Qed.

Lemma get_assembled_pubstate_bad :
  goodMode settings = false ->
  Obj.get (assembled entry settings) "pubstate" = PUndef.
Proof. intros E. read_assembled_in E. Qed.

Lemma get_assembled_pubstate_good :
  goodMode settings = true ->
  Obj.get (assembled entry settings) "pubstate" = of_str (Entry.pubstate entry).
Proof. intros E. read_assembled_in E. Qed.

Lemma get_assembled_howpublished_bad :
  goodMode settings = false ->
  Obj.get (assembled entry settings) "howpublished" = PUndef.
Proof. intros E. read_assembled_in E. Qed.

Lemma get_assembled_howpublished_good :
  goodMode settings = true ->
  Obj.get (assembled entry settings) "howpublished" = journalRefLink entry.
Proof. intros E. read_assembled_in E. Qed.

Lemma get_assembled_journaltitle_good :
  goodMode settings = true ->
  Obj.get (assembled entry settings) "journaltitle" = journalValue entry settings.
Proof. intros E. read_assembled_in E. Qed.

Lemma get_assembled_journaltitle_bad :
  goodMode settings = false ->
  Obj.get (assembled entry settings) "journaltitle" = PUndef.
Proof. intros E. read_assembled_in E. Qed.

Lemma get_assembled_journal_good :
  goodMode settings = true ->
  Obj.get (assembled entry settings) "journal" = PUndef.
Proof. intros E. read_assembled_in E. Qed.

Lemma get_assembled_journal_bad :
  goodMode settings = false ->
  Obj.get (assembled entry settings) "journal" = journalValue entry settings.
Proof. intros E. read_assembled_in E. Qed.

Lemma get_assembled_series_good :
  goodMode settings = true ->
  Obj.get (assembled entry settings) "series" = of_str (Entry.series entry).
Proof. intros E. read_assembled_in E. Qed.

Lemma get_assembled_series_bad :
  goodMode settings = false ->
  Obj.get (assembled entry settings) "series" = PNull.
Proof. intros E. read_assembled_in E. Qed.

Lemma truthy_of_str (o : option string) : truthy (of_str o) = present o.
Proof. destruct o; reflexivity. Qed.

Lemma truthy_journalRefLink :
  truthy (journalRefLink entry) = present (Entry.journalRef entry).
Proof. unfold journalRefLink. destruct (present (Entry.journalRef entry)); reflexivity. Qed.

End Fields.

(* ================================================================== *)
(** ** The fields that depend on the mode *)

(** C5. In bad mode (the mode is not [biblatex]) the builder appends, after
    the base and arXiv fields and before [doi], [file], [comment] and
    [abstract], one field [note]: the flagged journalRef when the entry has a
    doi or a journalRef, the string [Preprint] when it has neither.  The
    flagged journalRef is the [abbr] element around the journalRef, and
    [null] for an entry without journalRef, in which case the deletion of the
    empty values removes the note.  In good mode the builder appends
    [pubstate] and [howpublished], the flagged journalRef, instead. *)
Theorem buildPairing_note `{Utils} (entry : Entry.t) (settings : Settings.t)
        (h : heap) :
  exists b h',
    buildPairing entry settings h = Ok (b, h')
    /\ objs h' (Built.pairing b) = kept (assembled entry settings)
    /\ journalRefLink entry
       = (if present (Entry.journalRef entry)
          then PElem (Abbr abbr_title (toString (Entry.journalRef entry)))
          else PNull)
    /\ (Settings.mode settings <> "biblatex" ->
        assembled entry settings
        = (base_fields entry settings ++ arxiv_fields entry settings
             ++ [("note",
                  if present (Entry.doi entry) || present (Entry.journalRef entry)
                  then journalRefLink entry else PStr "Preprint")]
             ++ last_fields entry settings)%list
        /\ Obj.get (objs h' (Built.pairing b)) "note"
           = (if present (Entry.doi entry) || present (Entry.journalRef entry)
              then (if present (Entry.journalRef entry)
                    then journalRefLink entry else PUndef)
              else PStr "Preprint")
        /\ ~ In "pubstate" (Obj.keys (objs h' (Built.pairing b)))
        /\ ~ In "howpublished" (Obj.keys (objs h' (Built.pairing b))))
    /\ (Settings.mode settings = "biblatex" ->
        assembled entry settings
        = (base_fields entry settings ++ arxiv_fields entry settings
             ++ [("pubstate", of_str (Entry.pubstate entry));
                 ("howpublished", journalRefLink entry)]
             ++ last_fields entry settings)%list
        /\ Obj.get (objs h' (Built.pairing b)) "pubstate"
           = (if present (Entry.pubstate entry)
              then of_str (Entry.pubstate entry) else PUndef)
        /\ Obj.get (objs h' (Built.pairing b)) "howpublished"
           = (if present (Entry.journalRef entry)
              then journalRefLink entry else PUndef)
        /\ ~ In "note" (Obj.keys (objs h' (Built.pairing b)))).
Proof.
  destruct (buildPairing_built entry settings h) as (b & h' & Hrun & Hobj & _).
  exists b, h'. split; [exact Hrun |]. split; [exact Hobj |].
  split; [reflexivity |]. rewrite Hobj. split.
  - intros Hmode. apply goodMode_false in Hmode.
    split; [unfold assembled, mode_fields; now rewrite Hmode |].
    split.
    + rewrite get_built, (get_assembled_note_bad _ _ Hmode). unfold noteValue.
      destruct (present (Entry.doi entry) || present (Entry.journalRef entry));
        [| reflexivity].
      now rewrite truthy_journalRefLink.
    + split; apply kept_absent; try apply well_formed_assembled.
      * now rewrite (get_assembled_pubstate_bad _ _ Hmode).
      * now rewrite (get_assembled_howpublished_bad _ _ Hmode).
  - intros Hmode. apply goodMode_true in Hmode.
    split; [unfold assembled, mode_fields; now rewrite Hmode |].
    split; [| split].
    + rewrite get_built, (get_assembled_pubstate_good _ _ Hmode).
      now rewrite truthy_of_str.
    + rewrite get_built, (get_assembled_howpublished_good _ _ Hmode).
      now rewrite truthy_journalRefLink.
    + apply kept_absent; [apply well_formed_assembled |].
      now rewrite (get_assembled_note_good _ _ Hmode).
Qed.

Lemma buildPairing_note_sample :
  (exists b h',
      @buildPairing spec_utils sample_entry bibtex_settings empty_heap = Ok (b, h')
      /\ Obj.get (objs h' (Built.pairing b)) "note" = PStr "Preprint")
  /\ (exists b h',
         @buildPairing spec_utils sample_entry biblatex_settings empty_heap = Ok (b, h')
         /\ ~ In "note" (Obj.keys (objs h' (Built.pairing b)))).
Proof.
  split.
  - destruct (@buildPairing_note spec_utils sample_entry bibtex_settings empty_heap)
      as (b & h' & Hrun & _ & _ & Hbad & _).
    exists b, h'. split; [exact Hrun |].
    apply Hbad. discriminate.
  - destruct (@buildPairing_note spec_utils sample_entry biblatex_settings empty_heap)
      as (b & h' & Hrun & _ & _ & _ & Hgood).
    exists b, h'. split; [exact Hrun |].
    apply Hgood. reflexivity.
Defined.

(** C6. For an entry with a non-empty journal, the journal is under the key
    [journaltitle] in good mode and under [journal] in bad mode.  In bad
    mode, when the entry has a series too, the value is the journal followed
    by the series in parentheses: the journal [Annals of Math] with the
    series [2nd series] gives [Annals of Math (2nd series)].  The key
    [series] is in the pairing in good mode only. *)
Theorem buildPairing_journal `{Utils} (entry : Entry.t) (settings : Settings.t)
        (h : heap) (j : string) :
  Entry.journal entry = Some j ->
  j <> "" ->
  exists b h',
    buildPairing entry settings h = Ok (b, h')
    /\ (Settings.mode settings = "biblatex" ->
        Obj.get (objs h' (Built.pairing b)) "journaltitle" = PStr j
        /\ ~ In "journal" (Obj.keys (objs h' (Built.pairing b)))
        /\ Obj.get (objs h' (Built.pairing b)) "series"
           = (if present (Entry.series entry)
              then of_str (Entry.series entry) else PUndef))
    /\ (Settings.mode settings <> "biblatex" ->
        ~ In "journaltitle" (Obj.keys (objs h' (Built.pairing b)))
        /\ ~ In "series" (Obj.keys (objs h' (Built.pairing b)))
        /\ (forall s, Entry.series entry = Some s -> s <> "" ->
              Obj.get (objs h' (Built.pairing b)) "journal"
              = PStr (j ++ " (" ++ s ++ ")"))
        /\ (present (Entry.series entry) = false ->
              Obj.get (objs h' (Built.pairing b)) "journal" = PStr j)
        /\ (j = "Annals of Math" -> Entry.series entry = Some "2nd series" ->
              Obj.get (objs h' (Built.pairing b)) "journal"
              = PStr "Annals of Math (2nd series)")).
Proof.
  intros Hj Hne.
  destruct (present_toString _ _ Hj Hne) as [Hpj Htj].
  destruct (buildPairing_built entry settings h) as (b & h' & Hrun & Hobj & _).
  exists b, h'. split; [exact Hrun |]. rewrite Hobj.
  assert (Hbad : forall s, goodMode settings = false ->
                   Entry.series entry = Some s -> s <> "" ->
                   Obj.get (kept (assembled entry settings)) "journal"
                   = PStr (j ++ " (" ++ s ++ ")")).
  { intros s Hmode Hs Hsne.
    destruct (present_toString _ _ Hs Hsne) as [Hps Hts].
    rewrite get_built, (get_assembled_journal_bad _ _ Hmode).
    unfold journalValue. rewrite Hpj, Htj, Hmode, Hps, Hts. cbn [negb andb].
    now rewrite truthy_append. }
  split.
  - intros Hmode. apply goodMode_true in Hmode. split; [| split].
    + rewrite get_built, (get_assembled_journaltitle_good _ _ Hmode).
      unfold journalValue. rewrite Hpj, Htj, Hmode. cbn [negb andb].
      rewrite append_nil_r. cbn [truthy].
      apply String.eqb_neq in Hne. now rewrite Hne.
    + apply kept_absent; [apply well_formed_assembled |].
      now rewrite (get_assembled_journal_good _ _ Hmode).
    + rewrite get_built, (get_assembled_series_good _ _ Hmode).
      now rewrite truthy_of_str.
  - intros Hmode. apply goodMode_false in Hmode.
    split; [| split; [| split; [| split]]].
    + apply kept_absent; [apply well_formed_assembled |].
      now rewrite (get_assembled_journaltitle_bad _ _ Hmode).
    + apply kept_absent; [apply well_formed_assembled |].
      now rewrite (get_assembled_series_bad _ _ Hmode).
    + intros s. now apply Hbad.
    + intros Hps.
      rewrite get_built, (get_assembled_journal_bad _ _ Hmode).
      unfold journalValue. rewrite Hpj, Htj, Hmode, Hps. cbn [negb andb].
      rewrite append_nil_r. cbn [truthy].
      apply String.eqb_neq in Hne. now rewrite Hne.
    + intros -> Hs. apply (Hbad "2nd series" Hmode Hs). discriminate.
Qed.

Lemma buildPairing_journal_sample :
  exists b h',
    @buildPairing spec_utils sample_entry bibtex_settings empty_heap = Ok (b, h')
    /\ Obj.get (objs h' (Built.pairing b)) "journal"
       = PStr "Annals of Math (2nd series)".
Proof.
  destruct (@buildPairing_journal spec_utils sample_entry bibtex_settings
              empty_heap "Annals of Math")
    as (b & h' & Hrun & _ & Hbad).
  - reflexivity.
  - discriminate.
  - exists b, h'. split; [exact Hrun |].
    apply Hbad; [discriminate | reflexivity | reflexivity].
Defined.

(* ================================================================== *)
(** ** The download command *)

(** C7. The builder returns a command, not [null], exactly when the file is
    included and the entry has a link to the PDF.  The command is in
    PowerShell syntax when [wgetPowershell] is set and in [wget] syntax
    otherwise, made of the link, the folder and the file name, which is the
    key followed by [.pdf], after the first character of the key and a slash
    when [filePrefix] is set.  With the file included, no PowerShell, the
    link [http://x/y.pdf] and the folder [papers], the command is
    [wget --user-agent='Mozilla' http://x/y.pdf -O papers/] followed by the
    file name. *)
Theorem buildPairing_wget `{Utils} (entry : Entry.t) (settings : Settings.t)
        (h : heap) :
  exists b h',
    buildPairing entry settings h = Ok (b, h')
    /\ (Built.wget b <> None
        <-> Settings.includeFile settings = true
            /\ present (Entry.pdfLink entry) = true)
    /\ fileName entry settings
       = (if Settings.filePrefix settings
          then toString (char0 (Built.key b)) ++ "/" else "")
         ++ Built.key b ++ ".pdf"
    /\ (forall link,
          Settings.includeFile settings = true ->
          Entry.pdfLink entry = Some link -> link <> "" ->
          Built.wget b
          = Some (if Settings.wgetPowershell settings
                  then "pwsh -Command Invoke-WebRequest " ++ link
                       ++ " -OutFile " ++ Settings.fileFolder settings
                       ++ "\" ++ fileName entry settings
                  else "wget --user-agent='Mozilla' " ++ link
                       ++ " -O " ++ Settings.fileFolder settings
                       ++ "/" ++ fileName entry settings))
    /\ (Settings.includeFile settings = true ->
        Settings.wgetPowershell settings = false ->
        Entry.pdfLink entry = Some "http://x/y.pdf" ->
        Settings.fileFolder settings = "papers" ->
        Built.wget b
        = Some ("wget --user-agent='Mozilla' http://x/y.pdf -O papers/"
                ++ fileName entry settings)).
Proof.
  destruct (buildPairing_built entry settings h)
    as (b & h' & Hrun & _ & _ & Hkey & Hwget & _).
  exists b, h'. split; [exact Hrun |].
  assert (Hform : forall link,
             Settings.includeFile settings = true ->
             Entry.pdfLink entry = Some link -> link <> "" ->
             Built.wget b
             = Some (if Settings.wgetPowershell settings
                     then "pwsh -Command Invoke-WebRequest " ++ link
                          ++ " -OutFile " ++ Settings.fileFolder settings
                          ++ "\" ++ fileName entry settings
                     else "wget --user-agent='Mozilla' " ++ link
                          ++ " -O " ++ Settings.fileFolder settings
                          ++ "/" ++ fileName entry settings)).
  { intros link Hfile Hlink Hne.
    destruct (present_toString _ _ Hlink Hne) as [Hp Ht].
    rewrite Hwget. unfold wget_command. rewrite Hfile, Hp, Ht. cbn [andb].
    destruct (Settings.wgetPowershell settings); reflexivity. }
  split; [| split; [| split]].
  - rewrite Hwget. unfold wget_command.
    destruct (Settings.includeFile settings), (present (Entry.pdfLink entry));
      cbn [andb].
    + destruct (Settings.wgetPowershell settings);
        (split; [intros _; split; reflexivity | intros _; discriminate]).
    + split; [congruence | intros [_ E]; discriminate].
    + split; [congruence | intros [E _]; discriminate].
    + split; [congruence | intros [E _]; discriminate].
  - rewrite Hkey. reflexivity.
  - exact Hform.
  - intros Hfile Hps Hlink Hfolder.
    rewrite (Hform _ Hfile Hlink) by discriminate.
    rewrite Hps, Hfolder. reflexivity.
Qed.

Lemma buildPairing_wget_sample :
  exists b h',
    @buildPairing spec_utils sample_entry bibtex_settings empty_heap = Ok (b, h')
    /\ Built.wget b
       = Some ("wget --user-agent='Mozilla' http://x/y.pdf -O papers/"
               ++ @fileName spec_utils sample_entry bibtex_settings).
Proof.
  destruct (@buildPairing_wget spec_utils sample_entry bibtex_settings empty_heap)
    as (b & h' & Hrun & _ & _ & _ & Hex).
  exists b, h'. split; [exact Hrun |].
  apply Hex; reflexivity.
Defined.

(* ================================================================== *)
(** ** Lines of a text and their parts *)

Lemma lines_single (a : string) : has_newline a = false -> Reparse.lines a = [a].
Proof.
  induction a as [|c a IH]; [reflexivity |].
  cbn [has_newline Reparse.lines]. intros Hs.
  apply orb_false_iff in Hs as [Hc Ha]. rewrite Hc, (IH Ha). reflexivity.
Qed.

Lemma lines_append_newline (a b : string) :
  has_newline a = false ->
  Reparse.lines (a ++ nl ++ b) = a :: Reparse.lines b.
Proof.
  induction a as [|c a IH]; [reflexivity |].
  cbn [has_newline]. intros Hs. apply orb_false_iff in Hs as [Hc Ha].
  change (String c a ++ nl ++ b) with (String c (a ++ nl ++ b)).
  cbn [Reparse.lines]. rewrite Hc, (IH Ha). reflexivity.
Qed.

Lemma split_eq_first (a b : string) :
  has_equals a = false ->
  Reparse.split_eq (a ++ String "="%char b) = Some (a, b).
Proof.
  induction a as [|c a IH]; [reflexivity |].
  cbn [has_equals]. intros Hs. apply orb_false_iff in Hs as [Hc Ha].
  change (String c a ++ String "="%char b) with (String c (a ++ String "="%char b)).
  cbn [Reparse.split_eq]. rewrite Hc, (IH Ha). reflexivity.
Qed.

Lemma has_equals_append (a b : string) :
  has_equals (a ++ b) = has_equals a || has_equals b.
Proof.
  induction a as [|x a IH]; simpl; [reflexivity |].
  now rewrite IH, orb_assoc.
Qed.

Lemma has_equals_spaces (n : nat) : has_equals (spaces n) = false.
Proof. induction n as [|n IH]; simpl; [reflexivity | exact IH]. Qed.

Lemma ltrim_spaces (n : nat) (s : string) :
  Reparse.ltrim (spaces n ++ s) = Reparse.ltrim s.
Proof. induction n as [|n IH]; [reflexivity | exact IH]. Qed.

Lemma ltrim_fixed_append (k s : string) :
  k <> "" -> Reparse.ltrim k = k -> Reparse.ltrim (k ++ s) = k ++ s.
Proof.
  destruct k as [|c k]; [congruence |]. intros _.
  cbn [Reparse.ltrim append].
  destruct (SpecUtils.is_space c) eqn:Hc; [| reflexivity].
  intros E. exfalso.
  assert (Hlen : forall x, String.length (Reparse.ltrim x) <= String.length x).
  { clear. induction x as [|d x IH]; simpl; [lia |].
    destruct (SpecUtils.is_space d); simpl; lia. }
  specialize (Hlen k). rewrite E in Hlen. simpl in Hlen. lia.
Qed.

Lemma rtrim_spaces (s : string) (n : nat) :
  Reparse.rtrim (s ++ spaces n) = Reparse.rtrim s.
Proof.
  assert (Hsp : Reparse.rtrim (spaces n) = "").
  { induction n as [|n IH]; [reflexivity |].
    cbn [spaces Reparse.rtrim]. rewrite IH. reflexivity. }
  induction s as [|c s IH]; [exact Hsp |].
  change (String c s ++ spaces n) with (String c (s ++ spaces n)).
  cbn [Reparse.rtrim]. now rewrite IH.
Qed.

Lemma rtrim_ends_ink (s : string) (c : ascii) :
  SpecUtils.is_space c = false ->
  Reparse.rtrim (s ++ String c "") = s ++ String c "".
Proof.
  intros Hc. induction s as [|d s IH].
  - cbn [append Reparse.rtrim]. now rewrite Hc.
  - change (String d s ++ String c "") with (String d (s ++ String c "")).
    cbn [Reparse.rtrim]. rewrite IH.
    destruct s; reflexivity.
Qed.

Lemma trim_padded_key (k : string) (a b : nat) :
  Reparse.ltrim k = k -> Reparse.rtrim k = k ->
  Reparse.trim (spaces a ++ k ++ spaces b) = k.
Proof.
  intros Hl Hr. unfold Reparse.trim. rewrite ltrim_spaces.
  destruct k as [|c k].
  - cbn [append]. rewrite <- (append_nil_r (spaces b)), ltrim_spaces. reflexivity.
  - rewrite ltrim_fixed_append by (congruence || exact Hl).
    now rewrite rtrim_spaces.
Qed.

Lemma strip_suffix_append (suffix v : string) :
  Reparse.strip_suffix suffix (v ++ suffix) = Some v.
Proof.
  induction v as [|c v IH].
  - cbn [append]. destruct suffix; cbn [Reparse.strip_suffix];
      now rewrite String.eqb_refl.
  - change (String c v ++ suffix) with (String c (v ++ suffix)).
    cbn [Reparse.strip_suffix].
    destruct (String.eqb_spec (String c (v ++ suffix)) suffix) as [E|_].
    + exfalso. apply (f_equal String.length) in E.
      simpl in E. rewrite length_append in E. lia.
    + rewrite IH. reflexivity.
Qed.

Lemma parse_row_line (m : nat) (k : string) (v : pval) :
  plain_key k = true ->
  Reparse.parse_line (row_line m (k, v)) = Some (k, text_of v).
Proof.
  unfold plain_key. intros Hk.
  apply andb_true_iff in Hk as [Hk Hr]. apply andb_true_iff in Hk as [Hk Hl].
  apply andb_true_iff in Hk as [_ He].
  apply String.eqb_eq in Hl, Hr. apply negb_true_iff in He.
  unfold row_line, row_prefix. cbn [fst snd].
  set (p := m - String.length k). set (t := text_of v).
  replace (("  " ++ k ++ spaces p ++ " = {") ++ t ++ "},")
    with (("  " ++ k ++ spaces (p + 1)) ++ String "="%char (" {" ++ t ++ "},")).
  2:{ rewrite spaces_add. cbn [spaces]. rewrite !append_assoc. reflexivity. }
  unfold Reparse.parse_line. rewrite split_eq_first.
  2:{ rewrite !has_equals_append, He, has_equals_spaces. reflexivity. }
  change ("  " ++ k ++ spaces (p + 1)) with (spaces 2 ++ k ++ spaces (p + 1)).
  rewrite (trim_padded_key k 2 (p + 1) Hl Hr).
  assert (Ht : Reparse.trim (" {" ++ t ++ "},") = "{" ++ t ++ "},").
  { unfold Reparse.trim.
    change (Reparse.ltrim (" {" ++ t ++ "},")) with ("{" ++ t ++ "},").
    replace ("{" ++ t ++ "},") with (("{" ++ t ++ "}") ++ String ","%char "")
      by (now rewrite !append_assoc).
    now apply rtrim_ends_ink. }
  rewrite Ht. cbn [append Reparse.braced].
  now rewrite strip_suffix_append.
Qed.

Lemma get_In (o : Pairing) (k : string) :
  In k (Obj.keys o) -> In (k, Obj.get o k) o.
Proof.
  induction o as [|[k' v'] o IH]; cbn [Obj.keys map fst In Obj.get]; [contradiction |].
  intros Hin. destruct (String.eqb_spec k' k) as [->|Hne]; [now left |].
  right. apply IH. destruct Hin as [E|Hin]; [congruence | exact Hin].
Qed.

Lemma set_get_id (o : Pairing) (k : string) :
  In k (Obj.keys o) -> Obj.set o k (Obj.get o k) = o.
Proof.
  induction o as [|[k' v'] o IH]; cbn [Obj.keys map fst In Obj.get Obj.set];
    [contradiction |].
  intros Hin. destruct (String.eqb_spec k' k) as [->|Hne]; [reflexivity |].
  f_equal. apply IH. destruct Hin as [E|Hin]; [congruence | exact Hin].
Qed.

(** An object without a line break in its values is not changed by the
    renderer. *)
Lemma padded_plain (o : Pairing) :
  abstract_is_text o = true ->
  (forall k v, In (k, v) o -> has_newline (text_of v) = false) ->
  padded o = o.
Proof.
  intros Htyped Hplain. unfold padded.
  destruct (truthy (Obj.get o "abstract")) eqn:Ht; [| reflexivity].
  pose proof (get_In o "abstract" (get_truthy_in o "abstract" Ht)) as Hin.
  specialize (Hplain _ _ Hin).
  unfold abstract_is_text in Htyped.
  destruct (Obj.get o "abstract") as [| |s|n|e] eqn:Hget; try discriminate.
  cbn [text_of] in *. unfold indent_lines.
  rewrite (replace_newlines_none _ s Hplain), <- Hget.
  apply set_get_id. now apply get_truthy_in; rewrite Hget.
Qed.

Lemma row_text_line (m : nat) (kv : string * pval) :
  row_text m kv = row_line m kv ++ nl.
Proof. unfold row_text, row_line. now rewrite !append_assoc. Qed.

Lemma has_newline_row_line (m : nat) (k : string) (v : pval) :
  has_newline k = false -> has_newline (text_of v) = false ->
  has_newline (row_line m (k, v)) = false.
Proof.
  intros Hk Hv. unfold row_line, row_prefix. cbn [fst snd].
  rewrite !has_newline_append, Hk, Hv, has_newline_spaces. reflexivity.
Qed.

Lemma lines_rows_text (m : nat) (o : Pairing) (rest : string) :
  (forall k v, In (k, v) o ->
     has_newline k = false /\ has_newline (text_of v) = false) ->
  Reparse.lines (rows_text m o ++ rest)
  = (map (row_line m) o ++ Reparse.lines rest)%list.
Proof.
  induction o as [|[k v] o IH]; intros Hplain; [reflexivity |].
  cbn [rows_text map app]. rewrite row_text_line, !append_assoc.
  destruct (Hplain k v (or_introl eq_refl)) as [Hk Hv].
  rewrite lines_append_newline by now apply has_newline_row_line.
  f_equal. apply IH. intros k' v' Hin. apply Hplain. now right.
Qed.

(** The lines of an entry without a line break in its type, key, field
    names and values: the header, one line for each row, the closing brace. *)
Lemma lines_entry_text (type key : string) (o : Pairing) :
  has_newline type = false ->
  has_newline key = false ->
  (forall k v, In (k, v) o ->
     has_newline k = false /\ has_newline (text_of v) = false) ->
  Reparse.lines (entry_text type o key)
  = (("@" ++ type ++ "{" ++ key ++ ",")%string
       :: map (row_line (longest o)) o ++ ["}"])%list.
Proof.
  intros Hty Hkey Hplain. unfold entry_text, header.
  replace (("@" ++ type ++ "{" ++ key ++ "," ++ nl) ++ rows_text (longest o) o ++ "}")
    with (("@" ++ type ++ "{" ++ key ++ ",") ++ nl ++ rows_text (longest o) o ++ "}")
    by (now rewrite !append_assoc).
  rewrite lines_append_newline.
  - now rewrite lines_rows_text.
  - rewrite !has_newline_append, Hty, Hkey. reflexivity.
Qed.

Lemma parse_row_lines (m : nat) (o : Pairing) :
  (forall k v, In (k, v) o -> plain_key k = true) ->
  Reparse.parse_lines (map (row_line m) o) = Some (shown o).
Proof.
  induction o as [|[k v] o IH]; intros Hplain; [reflexivity |].
  cbn [map Reparse.parse_lines shown].
  rewrite (parse_row_line m k v (Hplain k v (or_introl eq_refl))).
  fold (shown o). rewrite IH; [reflexivity |].
  intros k' v' Hin. apply (Hplain k' v'). now right.
Qed.

Lemma plain_key_no_newline (k : string) :
  plain_key k = true -> has_newline k = false.
Proof.
  unfold plain_key. intros Hk.
  repeat (apply andb_true_iff in Hk as [Hk _]). now apply negb_true_iff.
Qed.

(* ================================================================== *)
(** ** Rendering and reading back *)

(** C8, as the code has it.  For a pairing whose keys have no line break,
    no equals sign and no white space at either end, whose values show no
    line break, rendered under a type and a key without line break, reading
    the body lines back (each split on its first equals sign, the parts
    trimmed, the value taken between the opening brace and the closing brace
    and comma) gives the keys and the texts of the values of the pairing, in
    the same order. *)
Theorem formatEntry_reparse (type key : string) (l : loc) (h : heap) :
  well_formed (objs h l) ->
  abstract_is_text (objs h l) = true ->
  has_newline type = false ->
  has_newline key = false ->
  (forall k v, In (k, v) (objs h l) ->
     plain_key k = true /\ has_newline (text_of v) = false) ->
  exists f h',
    formatEntry type l key h = Ok (f, h')
    /\ Reparse.reparse (textContent f) = Some (shown (objs h l)).
Proof.
  intros Hwf Htyped Hty Hkey Hplain.
  destruct (formatEntry_spec type key l h Htyped Hwf) as (h' & Hrun & _).
  rewrite padded_plain in Hrun;
    [| exact Htyped | intros k v Hin; now apply (Hplain k v)].
  exists (rendered type (objs h l) key), h'. split; [exact Hrun |].
  rewrite textContent_rendered. unfold Reparse.reparse.
  rewrite lines_entry_text; [| exact Hty | exact Hkey |].
  - rewrite removelast_last. apply parse_row_lines.
    intros k v Hin. now apply (Hplain k v).
  - intros k v Hin. destruct (Hplain k v Hin) as [Hk Hv].
    split; [now apply plain_key_no_newline | exact Hv].
Qed.

Lemma formatEntry_reparse_three_keys :
  exists f h',
    formatEntry "article" 0 "Doe2020" (heap_of three_keys) = Ok (f, h')
    /\ Reparse.reparse (textContent f) = Some (shown three_keys).
Proof.
  apply (formatEntry_reparse "article" "Doe2020" 0 (heap_of three_keys)).
  - solve_well_formed.
  - reflexivity.
  - reflexivity.
  - reflexivity.
  - intros k v Hin. cbn in Hin.
    destruct Hin as [E | [E | [E | []]]]; injection E as <- <-;
      split; reflexivity.
Defined.

(** C8 fails as stated: an abstract of two lines is rendered on two lines,
    the second one padded, and the lines read back are not the pairing. *)
Lemma reparse_two_line_abstract :
  exists f h',
    formatEntry "article" 0 "Doe2020" (heap_of two_line_abstract) = Ok (f, h')
    /\ textContent f
       = "@article{Doe2020," ++ nl
          ++ "  title    = {T}," ++ nl
          ++ "  abstract = {a" ++ nl
          ++ spaces 14 ++ "b}," ++ nl
          ++ "}"
    /\ Reparse.reparse (textContent f) <> Some (shown two_line_abstract).
Proof.
  destruct (formatEntry_spec "article" "Doe2020" 0 (heap_of two_line_abstract))
    as (h' & Hrun & _); [reflexivity | solve_well_formed |].
  eexists. exists h'. split; [exact Hrun |].
  split; [reflexivity |].
  vm_compute. discriminate.
Qed.

(* ================================================================== *)
(** ** No empty value is left in the pairing *)

Lemma solid_str (s : string) : solid (PStr s).
Proof.
  unfold solid. cbn [truthy text_of]. intros Ht ->. discriminate.
Qed.

Lemma solid_null : solid PNull.
Proof. unfold solid. discriminate. Qed.

Lemma solid_undef : solid PUndef.
Proof. unfold solid. discriminate. Qed.

Lemma solid_num (n : Z) : solid (PNum n).
Proof. unfold solid. intros _. apply show_Z_nonempty. Qed.

Lemma solid_of_str (o : option string) : solid (of_str o).
Proof. destruct o; [apply solid_str | apply solid_undef]. Qed.

Lemma solid_of_num (o : option Z) : solid (of_num o).
Proof. destruct o; [apply solid_num | apply solid_undef]. Qed.

Lemma solid_anchor (href c : string) : c <> "" -> solid (PElem (Anchor href c)).
Proof. unfold solid. auto. Qed.

Lemma solid_abbr (title c : string) : c <> "" -> solid (PElem (Abbr title c)).
Proof. unfold solid. auto. Qed.

Lemma present_nonempty (o : option string) :
  present o = true -> toString o <> "".
Proof.
  destruct o as [s|]; [| discriminate]. cbn [present toString].
  intros Hs ->. discriminate.
Qed.

Lemma append_nonempty_r (a b : string) : b <> "" -> a ++ b <> "".
Proof.
  intros Hb E. apply (f_equal String.length) in E.
  rewrite length_append in E. destruct b; [congruence | simpl in E; lia].
Qed.

Lemma fileName_nonempty `{Utils} (entry : Entry.t) (settings : Settings.t) :
  fileName entry settings <> "".
Proof.
  unfold fileName. apply append_nonempty_r, append_nonempty_r. discriminate.
Qed.

Ltac solid_value :=
  repeat match goal with
         | |- solid (if ?b then _ else _) => destruct b eqn:?
         end;
  first [ apply solid_str | apply solid_null | apply solid_undef
        | apply solid_of_str | apply solid_of_num
        | apply solid_anchor; first [ apply fileName_nonempty
                                    | now apply present_nonempty ]
        | apply solid_abbr; now apply present_nonempty ].

Section Solid.
Context `{Utils}.
Variables (entry : Entry.t) (settings : Settings.t).

Lemma assembled_solid (k : string) (v : pval) :
  In (k, v) (assembled entry settings) -> solid v.
Proof.
  unfold assembled, base_fields, arxiv_fields, mode_fields, last_fields,
    noteValue, fileLink, journalRefLink, doiLink, journalValue.
  destruct (goodMode settings);
    destruct (present (Entry.id entry)) eqn:Hid;
    cbn [app In]; intros Hin;
    repeat (destruct Hin as [E | Hin]; [injection E as <- <-; solid_value |]);
    contradiction.
Qed.

Lemma assembled_keys_plain (k : string) :
  In k (Obj.keys (assembled entry settings)) -> plain_key k = true /\ k <> "".
Proof.
  unfold assembled, base_fields, arxiv_fields, mode_fields, last_fields.
  destruct (goodMode settings);
    destruct (present (Entry.id entry));
    cbn [app Obj.keys map fst In]; intros Hin;
    repeat (destruct Hin as [<- | Hin]; [split; [reflexivity | discriminate] |]);
    contradiction.
Qed.

(** What is in the object that the builder returns. *)
Lemma built_fields (k : string) (v : pval) :
  In (k, v) (kept (assembled entry settings)) ->
  truthy v = true /\ text_of v <> "" /\ plain_key k = true /\ k <> "".
Proof.
  intros Hin. pose proof (kept_truthy _ _ Hin) as Ht. cbn [snd] in Ht.
  unfold kept in Hin. apply filter_In in Hin as [Hin _].
  split; [exact Ht |]. split; [now apply (assembled_solid k v Hin) |].
  apply assembled_keys_plain. unfold Obj.keys.
  change k with (fst (k, v)). now apply in_map.
Qed.

End Solid.

Lemma in_set (o : Pairing) (k0 : string) (v0 : pval) (k : string) (v : pval) :
  In (k, v) (Obj.set o k0 v0) -> (k = k0 /\ v = v0) \/ In (k, v) o.
Proof.
  induction o as [|[k' v'] o IH]; cbn [Obj.set In].
  - intros [E | []]. injection E as <- <-. now left.
  - destruct (String.eqb_spec k' k0) as [->|Hne]; cbn [In].
    + intros [E | Hin]; [injection E as <- <-; now left | right; now right].
    + intros [E | Hin]; [right; now left |].
      destruct (IH Hin) as [Hl | Hr]; [now left | right; now right].
Qed.

(** The padding keeps the values non-empty. *)
Lemma padded_fields (o : Pairing) (k : string) (v : pval) :
  abstract_is_text o = true ->
  (forall k v, In (k, v) o -> text_of v <> "") ->
  In (k, v) (padded o) ->
  text_of v <> "" /\ In k (Obj.keys o).
Proof.
  intros Htyped Hsolid. unfold padded.
  destruct (truthy (Obj.get o "abstract")) eqn:Ht.
  - intros Hin. apply in_set in Hin as [[-> ->] | Hin].
    + split; [| now apply get_truthy_in].
      unfold abstract_is_text in Htyped.
      destruct (Obj.get o "abstract") as [| |s|n|e]; try discriminate.
      cbn [text_of truthy] in *. apply indent_lines_nonempty.
      intros ->. discriminate.
    + split; [now apply (Hsolid k v) |].
      unfold Obj.keys. change k with (fst (k, v)). now apply in_map.
  - intros Hin. split; [now apply (Hsolid k v) |].
    unfold Obj.keys. change k with (fst (k, v)). now apply in_map.
Qed.

Lemma blank_append (a b : string) : blank (a ++ b) = blank a && blank b.
Proof.
  induction a as [|c a IH]; [reflexivity |].
  cbn [append blank]. now rewrite IH, andb_assoc.
Qed.

Lemma row_line_not_blank (m : nat) (kv : string * pval) :
  blank (row_line m kv) = false.
Proof.
  unfold row_line, row_prefix. rewrite !blank_append.
  cbn [blank]. change (SpecUtils.is_space "="%char) with false.
  cbn [andb]. now rewrite !andb_false_r.
Qed.

(** C2, as the code has it.  After the assembly the builder deletes every
    key whose value is empty, zero, [null] or absent: the pairing it returns
    is the assembled one filtered on truthy values, so every value in it is
    truthy and shows a non-empty text, under a non-empty key.  Rendered, every
    property is a row [  key padding = {value},] with a non-empty key and a
    non-empty value: no row is blank and none is a dangling [= {}].  When
    the type, the key and the values have no line break, the lines of the
    output are the header, these rows and the closing brace, and none of
    them is blank; a blank line is in the output only when it is in a
    value. *)
Theorem buildPairing_no_empty_value `{Utils} (entry : Entry.t)
        (settings : Settings.t) (h : heap) :
  exists b h1 f h2,
    buildPairing entry settings h = Ok (b, h1)
    /\ formatEntry (Built.type b) (Built.pairing b) (Built.key b) h1 = Ok (f, h2)
    /\ Built.type b = Entry.type entry
    /\ Built.key b = key (joinAuthorsGetKey (Entry.authors entry) (Entry.date entry))
    /\ objs h1 (Built.pairing b)
       = filter (fun kv => truthy (snd kv)) (assembled entry settings)
    /\ (forall k v, In (k, v) (objs h1 (Built.pairing b)) ->
          truthy v = true /\ text_of v <> "" /\ k <> "")
    /\ textContent f
       = header (Built.type b) (Built.key b)
           ++ rows_text (longest (objs h1 (Built.pairing b)))
                        (objs h2 (Built.pairing b))
           ++ "}"
    /\ (forall k v, In (k, v) (objs h2 (Built.pairing b)) ->
          k <> "" /\ text_of v <> ""
          /\ row_text (longest (objs h1 (Built.pairing b))) (k, v)
             = "  " ++ k
                    ++ spaces (longest (objs h1 (Built.pairing b)) - String.length k)
                    ++ " = {" ++ text_of v ++ "}," ++ nl)
    /\ (has_newline (Entry.type entry) = false ->
        has_newline (key (joinAuthorsGetKey (Entry.authors entry) (Entry.date entry)))
        = false ->
        (forall k v, In (k, v) (kept (assembled entry settings)) ->
           has_newline (text_of v) = false) ->
        Reparse.lines (textContent f)
        = (("@" ++ Entry.type entry ++ "{"
                ++ key (joinAuthorsGetKey (Entry.authors entry) (Entry.date entry))
                ++ ",")%string
             :: map (row_line (longest (objs h1 (Built.pairing b))))
                    (objs h1 (Built.pairing b))
             ++ ["}"])%list
        /\ forall line, In line (Reparse.lines (textContent f)) ->
             blank line = false).
Proof.
  destruct (buildPairing_built entry settings h)
    as (b & h1 & Hrun & Hobj & Htype & Hkey & _).
  set (o := kept (assembled entry settings)) in *.
  assert (Htyped : abstract_is_text o = true) by apply abstract_is_text_built.
  assert (Hwf : well_formed o) by apply well_formed_kept, well_formed_assembled.
  destruct (formatEntry_spec (Built.type b) (Built.key b) (Built.pairing b) h1)
    as (h2 & Hrun2 & _ & Hobj2 & _); [now rewrite Hobj | now rewrite Hobj |].
  rewrite Hobj in Hrun2, Hobj2.
  exists b, h1, (rendered (Built.type b) (padded o) (Built.key b)), h2.
  rewrite Hobj.
  split; [exact Hrun |]. split; [exact Hrun2 |].
  split; [exact Htype |]. split; [exact Hkey |]. split; [reflexivity |].
  split.
  { intros k v Hin. destruct (built_fields entry settings k v Hin)
      as (Ht & Hs & _ & Hk). auto. }
  split.
  { rewrite textContent_rendered. unfold entry_text.
    now rewrite longest_padded, Hobj2. }
  split.
  { intros k v Hin. rewrite Hobj2 in Hin.
    destruct (padded_fields o k v Htyped) as [Hs Hk]; [| exact Hin |].
    - intros k' v' Hin'. now destruct (built_fields entry settings k' v' Hin')
        as (_ & Hs' & _).
    - split; [| split; [exact Hs |]].
      + apply keys_kept_incl in Hk.
        now destruct (assembled_keys_plain entry settings k Hk).
      + unfold row_text, row_prefix. cbn [fst snd]. now rewrite !append_assoc. }
  intros Hty Hk Hplain.
  assert (Hpad : padded o = o) by now apply padded_plain.
  rewrite textContent_rendered, Hpad, Htype, Hkey.
  assert (Hlines : Reparse.lines
                     (entry_text (Entry.type entry) o (entryKey entry))
                   = (("@" ++ Entry.type entry ++ "{" ++ entryKey entry ++ ",")%string
                        :: map (row_line (longest o)) o ++ ["}"])%list).
  { apply lines_entry_text; [exact Hty | exact Hk |].
    intros k v Hin. split; [| now apply (Hplain k v)].
    apply plain_key_no_newline.
    now destruct (built_fields entry settings k v Hin) as (_ & _ & Hp & _). }
  split; [exact Hlines |].
  rewrite Hlines.
  intros line [<- | Hin]; [reflexivity |].
  apply in_app_or in Hin as [Hin | [<- | []]]; [| reflexivity].
  apply in_map_iff in Hin as (kv & <- & _). apply row_line_not_blank.
Qed.

Lemma buildPairing_no_empty_value_sample :
  exists b h1 f h2,
    @buildPairing spec_utils sample_entry bibtex_settings empty_heap = Ok (b, h1)
    /\ formatEntry (Built.type b) (Built.pairing b) (Built.key b) h1 = Ok (f, h2)
    /\ forall line, In line (Reparse.lines (textContent f)) -> blank line = false.
Proof.
  destruct (@buildPairing_no_empty_value spec_utils sample_entry bibtex_settings
              empty_heap)
    as (b & h1 & f & h2 & Hrun & Hrun2 & _ & _ & _ & _ & _ & _ & Hlines).
  exists b, h1, f, h2. split; [exact Hrun |]. split; [exact Hrun2 |].
  apply Hlines; [reflexivity | reflexivity |].
  intros k v Hin. cbv in Hin.
  repeat (destruct Hin as [E | Hin]; [injection E as <- <-; reflexivity |]).
  contradiction.
Defined.

(** C2 fails as stated: a title with an empty line in it is truthy, it is
    kept, and the output has an empty line. *)
Lemma blank_line_from_title :
  exists f h',
    @formattedEntry spec_utils
      (with_title ("a" ++ nl ++ nl ++ "b") sample_entry) bibtex_settings
      empty_heap
    = Ok (f, h')
    /\ In "" (Reparse.lines (textContent f))
    /\ existsb blank (Reparse.lines (textContent f)) = true.
Proof.
  destruct (@formattedEntry_run spec_utils
              (with_title ("a" ++ nl ++ nl ++ "b") sample_entry)
              bibtex_settings empty_heap)
    as (l & h' & Hrun & _).
  eexists. exists h'. split; [exact Hrun |].
  split; [| vm_compute; reflexivity].
  vm_compute. auto 10.
Qed.

(* ================================================================== *)
(** ** More on the renderer *)

(** Without a truthy abstract the renderer writes nothing: the heap it
    returns is the heap it was given. *)
Lemma formatEntry_run_falsy (type key : string) (l : loc) (h : heap) :
  truthy (Obj.get (objs h l) "abstract") = false ->
  formatEntry type l key h
  = Ok ((PStr (header type key)
         :: concat (map (fun k => row (longest (objs h l)) (k, Obj.get (objs h l) k))
                        (Obj.keys (objs h l)))
         ++ [PStr "}"])%list, h).
Proof.
  intros Ht. set (o := objs h l) in *.
  unfold formatEntry.
  unfold bind at 1, Object_keys at 1. fold o.
  unfold bind at 1, get_prop at 1. fold o.
  unfold bind at 1. rewrite Ht. unfold ret at 1.
  unfold bind at 1, Object_keys at 1. fold o.
  unfold bind at 1.
  rewrite (rows_run l h _ (longest o)).
  - reflexivity.
  - intros Hk. apply Math_max_longest. intros E. apply Hk. now rewrite E.
  - intros k. apply longest_ge.
Qed.

(** The renderer on an empty pairing: [Math.max()] is [-Infinity], which is
    never given to [repeat]; the call does not throw, it returns the header
    followed by the closing brace, and the heap is as it was. *)
Theorem formatEntry_empty_pairing (type key : string) (l : loc) (h : heap) :
  objs h l = [] ->
  Math_max (map len (Obj.keys (objs h l))) = NegInfinity
  /\ repeat_space (plus NegInfinity 6) = Throw RangeError
  /\ formatEntry type l key h
     = Ok ([PStr ("@" ++ type ++ "{" ++ key ++ "," ++ nl); PStr "}"], h)
  /\ (forall f h', formatEntry type l key h = Ok (f, h') ->
        textContent f = "@" ++ type ++ "{" ++ key ++ "," ++ nl ++ "}").
Proof.
  intros Hobj.
  assert (Hrun : formatEntry type l key h
                 = Ok ([PStr ("@" ++ type ++ "{" ++ key ++ "," ++ nl); PStr "}"], h)).
  { rewrite formatEntry_run_falsy by now rewrite Hobj.
    rewrite Hobj. reflexivity. }
  split; [now rewrite Hobj |]. split; [reflexivity |]. split; [exact Hrun |].
  intros f h' Hf. rewrite Hrun in Hf. injection Hf as <- _.
  cbn [textContent text_of]. rewrite append_nil_r.
  repeat (rewrite append_assoc || cbn [append]). reflexivity.
Qed.

Lemma formatEntry_empty_pairing_sample :
  formatEntry "misc" 0 "2020" empty_heap
  = Ok ([PStr ("@" ++ "misc" ++ "{" ++ "2020" ++ "," ++ nl); PStr "}"], empty_heap).
Proof.
  apply (formatEntry_empty_pairing "misc" "2020" 0 empty_heap). reflexivity.
Defined.

(** A pairing without an abstract, or with an empty one, is only read: the
    renderer returns the heap it was given, and the text is the header, one
    row for each property in the order of the object, and the closing
    brace. *)
Theorem formatEntry_reads_only (type key : string) (l : loc) (h : heap) :
  well_formed (objs h l) ->
  truthy (Obj.get (objs h l) "abstract") = false ->
  exists f,
    formatEntry type l key h = Ok (f, h)
    /\ textContent f
       = header type key ++ rows_text (longest (objs h l)) (objs h l) ++ "}"
    /\ List.length f = 6 * List.length (objs h l) + 2.
Proof.
  intros Hwf Ht. rewrite (formatEntry_run_falsy type key l h Ht).
  rewrite (map_get_keys _ (row (longest (objs h l))) Hwf).
  eexists. split; [reflexivity |]. split.
  - change (PStr (header type key)
            :: concat (map (row (longest (objs h l))) (objs h l)) ++ [PStr "}"])%list
      with (rendered type (objs h l) key).
    apply textContent_rendered.
  - cbn [List.length]. rewrite length_app. cbn [List.length].
    assert (Hrows : forall m o, List.length (concat (map (row m) o))
                                = 6 * List.length o).
    { clear. intros m o. induction o as [|kv o IH]; [reflexivity |].
      cbn [map concat]. rewrite length_app, IH. cbn [row List.length]. lia. }
    rewrite Hrows. lia.
Qed.

Lemma formatEntry_reads_only_sample :
  exists f,
    formatEntry "article" 0 "Doe2020" (heap_of three_keys)
    = Ok (f, heap_of three_keys).
Proof.
  destruct (formatEntry_reads_only "article" "Doe2020" 0 (heap_of three_keys))
    as (f & Hrun & _).
  - solve_well_formed.
  - reflexivity.
  - exists f. exact Hrun.
Defined.




Lemma indent_lines_add (a b : nat) (s : string) :
  indent_lines a (indent_lines b s) = indent_lines (a + b) s.
Proof.
  unfold indent_lines.
  assert (Hr : replace_newlines (nl ++ spaces a) (nl ++ spaces b)
               = nl ++ spaces (a + b)).
  { change (replace_newlines (nl ++ spaces a) (nl ++ spaces b))
      with ((nl ++ spaces a) ++ replace_newlines (nl ++ spaces a) (spaces b)).
    rewrite (replace_newlines_none _ (spaces b) (has_newline_spaces b)).
    now rewrite spaces_add, !append_assoc. }
  set (ra := nl ++ spaces a) in *. set (rb := nl ++ spaces b) in *.
  set (rab := nl ++ spaces (a + b)) in *.
  induction s as [|c s IH]; cbn [replace_newlines]; [reflexivity |].
  destruct (Ascii.eqb c newline) eqn:Hc.
  - now rewrite replace_newlines_app, IH, Hr.
  - cbn [replace_newlines]. now rewrite Hc, IH.
Qed.

(** The padding adds up: after [n + 1] calls of the renderer on the same
    object, every line break of the abstract is followed by
    [(n + 1) * (maxKeyLength + 6)] spaces; the keys and the other values are
    as they were. *)
Theorem formatEntry_again_pads (n : nat) (type key : string) (l : loc) (h : heap)
        (s : string) :
  well_formed (objs h l) ->
  Obj.get (objs h l) "abstract" = PStr s ->
  s <> "" ->
  exists f h',
    formatEntry_again n type l key h = Ok (f, h')
    /\ Obj.get (objs h' l) "abstract"
       = PStr (replace_newlines
                 (nl ++ spaces ((n + 1) * (longest (objs h l) + 6))) s)
    /\ Obj.keys (objs h' l) = Obj.keys (objs h l)
    /\ (forall k, k <> "abstract" ->
          Obj.get (objs h' l) k = Obj.get (objs h l) k)
    /\ (forall l', l' <> l -> objs h' l' = objs h l').
Proof.
  revert h s. induction n as [|n IH]; intros h s Hwf Hget Hs.
  - destruct (formatEntry_spec type key l h (abstract_is_text_str _ _ Hget) Hwf)
      as (h' & Hrun & _ & Hobj & Hframe).
    eexists. exists h'. split; [exact Hrun |]. rewrite Hobj.
    split; [cbn [Nat.add Nat.mul]; rewrite Nat.add_0_r; now apply padded_abstract |].
    split; [apply keys_padded |].
    split; [intros k Hk; now apply padded_other | exact Hframe].
  - destruct (formatEntry_spec type key l h (abstract_is_text_str _ _ Hget) Hwf)
      as (h1 & Hrun & _ & Hobj & Hframe).
    set (m := longest (objs h l) + 6) in *.
    assert (Hget1 : Obj.get (objs h1 l) "abstract" = PStr (indent_lines m s))
      by (rewrite Hobj; now apply padded_abstract).
    assert (Hwf1 : well_formed (objs h1 l))
      by (rewrite Hobj; now apply well_formed_padded).
    destruct (IH h1 (indent_lines m s) Hwf1 Hget1 (indent_lines_nonempty m s Hs))
      as (f & h' & Hrun' & Habs & Hkeys & Hother & Hframe').
    assert (Hlong : longest (objs h1 l) = longest (objs h l))
      by (rewrite Hobj; apply longest_padded).
    exists f, h'. cbn [formatEntry_again]. unfold bind at 1. rewrite Hrun.
    split; [exact Hrun' |].
    split.
    { rewrite Habs, Hlong. fold m. fold (indent_lines ((n + 1) * m) (indent_lines m s)).
      rewrite indent_lines_add. unfold indent_lines.
      replace ((n + 1) * m + m) with ((S n + 1) * m) by lia. reflexivity. }
    split; [rewrite Hkeys, Hobj; apply keys_padded |].
    split.
    { intros k Hk. rewrite (Hother k Hk), Hobj. now apply padded_other. }
    intros l' Hl'. now rewrite (Hframe' l' Hl'), (Hframe l' Hl').
Qed.

Lemma formatEntry_again_sample :
  exists f h',
    formatEntry_again 2 "article" 0 "Doe2020" (heap_of two_line_abstract) = Ok (f, h')
    /\ Obj.get (objs h' 0) "abstract"
       = PStr (replace_newlines (nl ++ spaces (3 * 14)) ("a" ++ nl ++ "b")).
Proof.
  destruct (formatEntry_again_pads 2 "article" "Doe2020" 0
              (heap_of two_line_abstract) ("a" ++ nl ++ "b"))
    as (f & h' & Hrun & Habs & _).
  - solve_well_formed.
  - reflexivity.
  - discriminate.
  - exists f, h'. split; [exact Hrun | exact Habs].
Defined.

(* ================================================================== *)
(** ** More on the fields of the built pairing *)

Lemma kept_present (o : Pairing) (k : string) :
  well_formed o -> truthy (Obj.get o k) = true -> In k (Obj.keys (kept o)).
Proof.
  intros Hwf Ht. apply get_truthy_in. rewrite (get_kept o k Hwf). now rewrite Ht.
Qed.

Lemma slice0_length (n : nat) (s : string) :
  String.length (slice0 n s) = Nat.min n (String.length s).
Proof.
  unfold slice0. revert s. induction n as [|n IH]; intros s.
  - destruct s; reflexivity.
  - destruct s as [|c s]; [reflexivity |]. cbn [substring String.length Nat.min].
    now rewrite IH.
Qed.

Lemma slice0_prefix (n : nat) (s : string) : prefix (slice0 n s) s = true.
Proof.
  unfold slice0. revert s. induction n as [|n IH]; intros s.
  - destruct s; reflexivity.
  - destruct s as [|c s]; [reflexivity |]. cbn [substring prefix].
    destruct (ascii_dec c c) as [_|Hc]; [apply IH | congruence].
Qed.

Lemma slice0_nonempty (n : nat) (s : string) :
  s <> "" -> truthy (PStr (slice0 (S n) s)) = true.
Proof. destruct s; [congruence | reflexivity]. Qed.

(** Reading one key of the assembled pairing when the mode and the presence
    of an arXiv id are known. *)
Ltac read_assembled_at Em Ei :=
  unfold assembled, base_fields, arxiv_fields, mode_fields, last_fields;
  rewrite ?Em, ?Ei; reflexivity.

(** A key whose assembled value is not truthy is not in the built pairing. *)
Ltac absent_key Em Ei :=
  apply kept_absent; [apply well_formed_assembled |];
  unfold assembled, base_fields, arxiv_fields, mode_fields, last_fields;
  rewrite ?Em, ?Ei; reflexivity.

Ltac absent_key_any_id Em :=
  apply kept_absent; [apply well_formed_assembled |];
  unfold assembled, base_fields, arxiv_fields, mode_fields, last_fields;
  rewrite ?Em;
  match goal with
  | |- context [present (Entry.id ?e)] => destruct (present (Entry.id e))
  end;
  reflexivity.

(** The date of the entry is under [date] in good mode; in bad mode its
    first four characters (all of it when it is shorter) are under [year]. *)
Theorem buildPairing_date `{Utils} (entry : Entry.t) (settings : Settings.t)
        (h : heap) :
  Entry.date entry <> "" ->
  exists b h',
    buildPairing entry settings h = Ok (b, h')
    /\ (Settings.mode settings = "biblatex" ->
        Obj.get (objs h' (Built.pairing b)) "date" = PStr (Entry.date entry)
        /\ ~ In "year" (Obj.keys (objs h' (Built.pairing b))))
    /\ (Settings.mode settings <> "biblatex" ->
        Obj.get (objs h' (Built.pairing b)) "year"
        = PStr (substring 0 4 (Entry.date entry))
        /\ String.length (substring 0 4 (Entry.date entry))
           = Nat.min 4 (String.length (Entry.date entry))
        /\ prefix (substring 0 4 (Entry.date entry)) (Entry.date entry) = true
        /\ ~ In "date" (Obj.keys (objs h' (Built.pairing b)))).
Proof.
  intros Hdate.
  destruct (buildPairing_built entry settings h) as (b & h' & Hrun & Hobj & _).
  exists b, h'. split; [exact Hrun |]. rewrite Hobj. split.
  - intros Hmode. apply goodMode_true in Hmode. split.
    + rewrite get_built.
      assert (E : Obj.get (assembled entry settings) "date" = PStr (Entry.date entry))
        by read_assembled_in Hmode.
      rewrite E. cbn [truthy]. apply String.eqb_neq in Hdate. now rewrite Hdate.
    + absent_key_any_id Hmode.
  - intros Hmode. apply goodMode_false in Hmode.
    split; [| split; [apply slice0_length | split; [apply slice0_prefix |]]].
    + rewrite get_built.
      assert (E : Obj.get (assembled entry settings) "year"
                  = PStr (slice0 4 (Entry.date entry)))
        by read_assembled_in Hmode.
      rewrite E, slice0_nonempty by exact Hdate. reflexivity.
    + absent_key_any_id Hmode.
Qed.

Lemma buildPairing_date_sample :
  exists b h',
    @buildPairing spec_utils sample_entry bibtex_settings empty_heap = Ok (b, h')
    /\ Obj.get (objs h' (Built.pairing b)) "year" = PStr "2020".
Proof.
  destruct (@buildPairing_date spec_utils sample_entry bibtex_settings empty_heap)
    as (b & h' & Hrun & _ & Hbad).
  - discriminate.
  - exists b, h'. split; [exact Hrun |]. apply Hbad. discriminate.
Defined.

(** For an entry with an arXiv id the pairing has [eprint], a link to the
    abstract page of the id.  Good mode adds [eprinttype] and no [url]; bad
    mode adds [archiveprefix] and the abstract page as [url], and never a
    version. *)
Theorem buildPairing_arxiv `{Utils} (entry : Entry.t) (settings : Settings.t)
        (h : heap) (id : string) :
  Entry.id entry = Some id ->
  id <> "" ->
  exists b h',
    buildPairing entry settings h = Ok (b, h')
    /\ Obj.get (objs h' (Built.pairing b)) "eprint"
       = PElem (Anchor ("https://arxiv.org/abs/" ++ id) id)
    /\ (Settings.mode settings = "biblatex" ->
        Obj.get (objs h' (Built.pairing b)) "eprinttype" = PStr "arXiv"
        /\ ~ In "archiveprefix" (Obj.keys (objs h' (Built.pairing b)))
        /\ ~ In "primaryclass" (Obj.keys (objs h' (Built.pairing b)))
        /\ ~ In "url" (Obj.keys (objs h' (Built.pairing b))))
    /\ (Settings.mode settings <> "biblatex" ->
        Obj.get (objs h' (Built.pairing b)) "archiveprefix" = PStr "arXiv"
        /\ Obj.get (objs h' (Built.pairing b)) "url"
           = PStr ("https://arxiv.org/abs/" ++ id)
        /\ ~ In "eprinttype" (Obj.keys (objs h' (Built.pairing b)))
        /\ ~ In "eprintclass" (Obj.keys (objs h' (Built.pairing b)))
        /\ ~ In "version" (Obj.keys (objs h' (Built.pairing b)))).
Proof.
  intros Hid Hne.
  destruct (present_toString _ _ Hid Hne) as [Hp Ht].
  destruct (buildPairing_built entry settings h) as (b & h' & Hrun & Hobj & _).
  exists b, h'. split; [exact Hrun |]. rewrite Hobj. split; [| split].
  - rewrite get_built.
    assert (E : Obj.get (assembled entry settings) "eprint"
                = PElem (Anchor (absURL entry) (toString (Entry.id entry)))).
    { unfold assembled, base_fields, arxiv_fields, mode_fields, last_fields.
      rewrite Hp. destruct (goodMode settings); reflexivity. }
    rewrite E. unfold absURL. rewrite Ht. reflexivity.
  - intros Hmode. apply goodMode_true in Hmode.
    split; [| split; [| split]]; try absent_key Hmode Hp.
    rewrite get_built.
    assert (E : Obj.get (assembled entry settings) "eprinttype" = PStr "arXiv")
      by read_assembled_at Hmode Hp.
    now rewrite E.
  - intros Hmode. apply goodMode_false in Hmode.
    split; [| split; [| split; [| split]]]; try absent_key Hmode Hp.
    + rewrite get_built.
      assert (E : Obj.get (assembled entry settings) "archiveprefix" = PStr "arXiv")
        by read_assembled_at Hmode Hp.
      now rewrite E.
    + rewrite get_built.
      assert (E : Obj.get (assembled entry settings) "url" = PStr (absURL entry))
        by read_assembled_at Hmode Hp.
      rewrite E. unfold absURL. rewrite Ht. reflexivity.
Qed.

Lemma buildPairing_arxiv_sample :
  exists b h',
    @buildPairing spec_utils arxiv_entry bibtex_settings empty_heap = Ok (b, h')
    /\ Obj.get (objs h' (Built.pairing b)) "url"
       = PStr "https://arxiv.org/abs/2001.00001".
Proof.
  destruct (@buildPairing_arxiv spec_utils arxiv_entry bibtex_settings empty_heap
              "2001.00001")
    as (b & h' & Hrun & _ & _ & Hbad).
  - reflexivity.
  - discriminate.
  - exists b, h'. split; [exact Hrun |]. apply Hbad. discriminate.
Defined.

(** For an entry without arXiv id none of the arXiv fields is in the
    pairing, whatever the settings. *)
Theorem buildPairing_no_arxiv `{Utils} (entry : Entry.t) (settings : Settings.t)
        (h : heap) :
  present (Entry.id entry) = false ->
  exists b h',
    buildPairing entry settings h = Ok (b, h')
    /\ forall k,
         In k ["eprint"; "eprinttype"; "archiveprefix"; "eprintclass";
               "primaryclass"; "version"; "url"] ->
         ~ In k (Obj.keys (objs h' (Built.pairing b))).
Proof.
  intros Hp.
  destruct (buildPairing_built entry settings h) as (b & h' & Hrun & Hobj & _).
  exists b, h'. split; [exact Hrun |]. rewrite Hobj.
  intros k Hk. cbn [In] in Hk.
  destruct (goodMode settings) eqn:Hmode;
    repeat (destruct Hk as [<- | Hk]; [absent_key Hmode Hp |]);
    contradiction.
Qed.

Lemma buildPairing_no_arxiv_sample :
  exists b h',
    @buildPairing spec_utils sample_entry bibtex_settings empty_heap = Ok (b, h')
    /\ ~ In "url" (Obj.keys (objs h' (Built.pairing b))).
Proof.
  destruct (@buildPairing_no_arxiv spec_utils sample_entry bibtex_settings empty_heap)
    as (b & h' & Hrun & Hnone).
  - reflexivity.
  - exists b, h'. split; [exact Hrun |]. apply Hnone. cbn. auto 10.
Defined.



Lemma truthy_fileLink `{Utils} (entry : Entry.t) (settings : Settings.t) :
  truthy (fileLink entry settings) = true.
Proof.
  unfold fileLink. destruct (present (Entry.pdfLink entry)); [reflexivity |].
  cbn [truthy]. pose proof (fileName_nonempty entry settings) as Hn.
  apply String.eqb_neq in Hn. now rewrite Hn.
Qed.

Lemma text_fileLink `{Utils} (entry : Entry.t) (settings : Settings.t) :
  text_of (fileLink entry settings) = fileName entry settings.
Proof. unfold fileLink. destruct (present (Entry.pdfLink entry)); reflexivity. Qed.

Lemma get_assembled_file `{Utils} (entry : Entry.t) (settings : Settings.t) :
  Obj.get (assembled entry settings) "file"
  = if Settings.includeFile settings then fileLink entry settings else PNull.
Proof. read_assembled. Qed.

(** The [file] field is in the pairing exactly when [includeFile] is on.
    Its text is always the file name; it is a link to the PDF when the entry
    has one and plain text otherwise. *)
Theorem buildPairing_file `{Utils} (entry : Entry.t) (settings : Settings.t)
        (h : heap) :
  exists b h',
    buildPairing entry settings h = Ok (b, h')
    /\ (In "file" (Obj.keys (objs h' (Built.pairing b)))
        <-> Settings.includeFile settings = true)
    /\ (Settings.includeFile settings = true ->
        text_of (Obj.get (objs h' (Built.pairing b)) "file")
        = (if Settings.filePrefix settings
           then toString (char0 (Built.key b)) ++ "/" else "")
          ++ Built.key b ++ ".pdf"
        /\ (forall link, Entry.pdfLink entry = Some link -> link <> "" ->
              exists name,
                Obj.get (objs h' (Built.pairing b)) "file"
                = PElem (Anchor link name))
        /\ (present (Entry.pdfLink entry) = false ->
              exists name,
                Obj.get (objs h' (Built.pairing b)) "file" = PStr name)).
Proof.
  destruct (buildPairing_built entry settings h)
    as (b & h' & Hrun & Hobj & _ & Hkey & _).
  exists b, h'. split; [exact Hrun |]. rewrite Hobj, Hkey.
  pose proof (get_assembled_file entry settings) as E.
  pose proof (truthy_fileLink entry settings) as Ht.
  split.
  - split.
    + intros Hin. destruct (Settings.includeFile settings) eqn:Hf; [reflexivity |].
      exfalso. revert Hin. apply kept_absent; [apply well_formed_assembled |].
      now rewrite E.
    + intros Hf. apply kept_present; [apply well_formed_assembled |].
      now rewrite E, Hf.
  - intros Hf. rewrite get_built, E, Hf, Ht.
    split; [apply text_fileLink | split].
    + intros link Hlink Hne.
      destruct (present_toString _ _ Hlink Hne) as [Hp Hts].
      unfold fileLink. rewrite Hp, Hts. now eexists.
    + intros Hp. unfold fileLink. rewrite Hp. now eexists.
Qed.

Lemma buildPairing_file_sample :
  exists b h',
    @buildPairing spec_utils sample_entry bibtex_settings empty_heap = Ok (b, h')
    /\ text_of (Obj.get (objs h' (Built.pairing b)) "file")
       = "" ++ Built.key b ++ ".pdf".
Proof.
  destruct (@buildPairing_file spec_utils sample_entry bibtex_settings empty_heap)
    as (b & h' & Hrun & _ & Hfile).
  exists b, h'. split; [exact Hrun |]. apply Hfile. reflexivity.
Defined.

(** With [filePrefix] on, the file name starts with the first character of
    the key and a slash; for an empty key, which has no first character, it
    is [undefined/.pdf]. *)
Theorem buildPairing_file_prefix `{Utils} (entry : Entry.t)
        (settings : Settings.t) (h : heap) :
  Settings.includeFile settings = true ->
  Settings.filePrefix settings = true ->
  exists b h',
    buildPairing entry settings h = Ok (b, h')
    /\ (Built.key b = "" ->
        text_of (Obj.get (objs h' (Built.pairing b)) "file") = "undefined/.pdf")
    /\ (forall c rest, Built.key b = String c rest ->
        text_of (Obj.get (objs h' (Built.pairing b)) "file")
        = String c ("/" ++ String c rest ++ ".pdf")).
Proof.
  intros Hf Hpre.
  destruct (buildPairing_built entry settings h)
    as (b & h' & Hrun & Hobj & _ & Hkey & _).
  exists b, h'. split; [exact Hrun |]. rewrite Hobj.
  assert (Ht : text_of (Obj.get (kept (assembled entry settings)) "file")
               = (toString (char0 (Built.key b)) ++ "/") ++ Built.key b ++ ".pdf").
  { rewrite get_built, get_assembled_file, Hf, truthy_fileLink, text_fileLink, Hkey.
    unfold fileName. now rewrite Hpre. }
  rewrite Ht. split.
  - intros ->. reflexivity.
  - intros c rest ->. reflexivity.
Qed.

Lemma buildPairing_file_prefix_sample :
  exists b h',
    @buildPairing spec_utils no_key_entry prefix_settings empty_heap = Ok (b, h')
    /\ text_of (Obj.get (objs h' (Built.pairing b)) "file") = "undefined/.pdf".
Proof.
  destruct (@buildPairing_file_prefix spec_utils no_key_entry prefix_settings
              empty_heap)
    as (b & h' & Hrun & Hempty & _); [reflexivity | reflexivity |].
  exists b, h'. split; [exact Hrun |]. apply Hempty.
  destruct (@buildPairing_built spec_utils no_key_entry prefix_settings empty_heap)
    as (b0 & h0 & Hrun0 & _ & _ & Hkey0 & _).
  rewrite Hrun in Hrun0. injection Hrun0 as <- _. exact Hkey0.
Defined.

(** The [doi] field is in the pairing exactly when the entry has a doi, as
    a link to the resolver; the comment and, when [includeAbstract] is on,
    the abstract are copied when they are not empty. *)
Theorem buildPairing_doi_comment_abstract `{Utils} (entry : Entry.t)
        (settings : Settings.t) (h : heap) :
  exists b h',
    buildPairing entry settings h = Ok (b, h')
    /\ Obj.get (objs h' (Built.pairing b)) "doi"
       = (if present (Entry.doi entry)
          then PElem (Anchor ("https://dx.doi.org/" ++ toString (Entry.doi entry))
                             (toString (Entry.doi entry)))
          else PUndef)
    /\ (In "doi" (Obj.keys (objs h' (Built.pairing b)))
        <-> present (Entry.doi entry) = true)
    /\ Obj.get (objs h' (Built.pairing b)) "comment"
       = (if present (Entry.comment entry)
          then of_str (Entry.comment entry) else PUndef)
    /\ Obj.get (objs h' (Built.pairing b)) "abstract"
       = (if Settings.includeAbstract settings && present (Entry.abstract entry)
          then of_str (Entry.abstract entry) else PUndef)
    /\ (In "abstract" (Obj.keys (objs h' (Built.pairing b)))
        <-> Settings.includeAbstract settings = true
            /\ present (Entry.abstract entry) = true).
Proof.
  destruct (buildPairing_built entry settings h) as (b & h' & Hrun & Hobj & _).
  exists b, h'. split; [exact Hrun |]. rewrite Hobj.
  assert (Ed : Obj.get (assembled entry settings) "doi" = doiLink entry)
    by read_assembled.
  assert (Ec : Obj.get (assembled entry settings) "comment"
               = of_str (Entry.comment entry)) by read_assembled.
  pose proof (get_assembled_abstract entry settings) as Ea.
  assert (Htd : truthy (doiLink entry) = present (Entry.doi entry)).
  { unfold doiLink. destruct (present (Entry.doi entry)); reflexivity. }
  assert (Hta : truthy (Obj.get (assembled entry settings) "abstract")
                = Settings.includeAbstract settings
                  && present (Entry.abstract entry)).
  { rewrite Ea. destruct (Settings.includeAbstract settings); [| reflexivity].
    apply truthy_of_str. }
  split; [| split; [| split; [| split]]].
  - rewrite get_built, Ed, Htd. unfold doiLink.
    destruct (present (Entry.doi entry)); reflexivity.
  - split.
    + intros Hin. destruct (present (Entry.doi entry)) eqn:Hp; [reflexivity |].
      exfalso. revert Hin. apply kept_absent; [apply well_formed_assembled |].
      now rewrite Ed, Htd.
    + intros Hp. apply kept_present; [apply well_formed_assembled |].
      now rewrite Ed, Htd.
  - rewrite get_built, Ec. now rewrite truthy_of_str.
  - rewrite get_built, Hta, Ea.
    destruct (Settings.includeAbstract settings); reflexivity.
  - split.
    + intros Hin.
      destruct (Settings.includeAbstract settings && present (Entry.abstract entry))
        eqn:Hb; [now apply andb_true_iff in Hb |].
      exfalso. revert Hin. apply kept_absent; [apply well_formed_assembled |].
      now rewrite Hta.
    + intros [Hi Hp]. apply kept_present; [apply well_formed_assembled |].
      now rewrite Hta, Hi, Hp.
Qed.

Lemma keys_kept_filter (o : Pairing) :
  well_formed o ->
  Obj.keys (kept o)
  = filter (fun k => truthy (Obj.get (kept o) k)) (Obj.keys o).
Proof.
  intros Hwf.
  assert (Hsame : forall k, truthy (Obj.get o k) = truthy (Obj.get (kept o) k)).
  { intros k. rewrite (get_kept o k Hwf).
    destruct (truthy (Obj.get o k)) eqn:Ht; [now rewrite Ht | reflexivity]. }
  rewrite <- (filter_ext _ _ Hsame). clear Hsame.
  unfold well_formed in Hwf.
  induction o as [|[k v] o IH]; [reflexivity |].
  inversion Hwf as [|? ? Hnotin Hnd']; subst.
  unfold kept. cbn [filter snd Obj.keys map fst Obj.get]. fold (kept o).
  rewrite String.eqb_refl.
  assert (Hext : filter (fun k0 => truthy (if k =? k0 then v else Obj.get o k0))
                        (map fst o)
                 = filter (fun k0 => truthy (Obj.get o k0)) (map fst o)).
  { apply filter_ext_in. intros k0 Hin.
    destruct (String.eqb_spec k k0) as [->|_]; [contradiction | reflexivity]. }
  rewrite Hext. specialize (IH Hnd'). unfold Obj.keys in IH.
  destruct (truthy v); cbn [map fst]; now rewrite IH.
Qed.

Lemma filter_none {A} (f : A -> bool) (l : list A) :
  (forall x, In x l -> f x = false) -> filter f l = [].
Proof.
  induction l as [|x l IH]; [reflexivity |]. intros Hf. cbn [filter].
  rewrite (Hf x (or_introl eq_refl)). apply IH. intros y Hy. apply Hf. now right.
Qed.

(** The keys that the builder writes are the keys of the mode, in order;
    without arXiv id the arXiv keys are left out. *)
Lemma filter_assembled_keys `{Utils} (entry : Entry.t) (settings : Settings.t)
      (f : string -> bool) :
  (forall k, ~ In k (Obj.keys (assembled entry settings)) -> f k = false) ->
  filter f (Obj.keys (assembled entry settings))
  = filter f (field_order (goodMode settings)).
Proof.
  destruct (goodMode settings) eqn:Hm; destruct (present (Entry.id entry)) eqn:Hi;
    intros Hout.
  - f_equal. unfold assembled, base_fields, arxiv_fields, mode_fields, last_fields.
    rewrite Hm, Hi. reflexivity.
  - set (pre := [ "author"; "date"; "title"; "journaltitle"; "series";
                  "maintitle"; "subtitle"; "volume"; "number"; "publisher";
                  "location"; "isbn"; "pagetotal" ]).
    set (arx := [ "eprint"; "eprinttype"; "eprintclass"; "version"; "url" ]).
    set (post := [ "pubstate"; "howpublished"; "doi"; "file"; "comment";
                   "abstract" ]).
    assert (L : Obj.keys (assembled entry settings) = (pre ++ post)%list).
    { unfold assembled, base_fields, arxiv_fields, mode_fields, last_fields.
      rewrite Hm, Hi. reflexivity. }
    change (field_order true) with (pre ++ arx ++ post)%list.
    rewrite L, !filter_app, (filter_none f arx); [reflexivity |].
    intros k Hk. apply Hout. rewrite L. revert Hk. clear.
    cbn. intuition (subst; discriminate).
  - f_equal. unfold assembled, base_fields, arxiv_fields, mode_fields, last_fields.
    rewrite Hm, Hi. reflexivity.
  - set (pre := [ "author"; "year"; "title"; "journal"; "series";
                  "maintitle"; "subtitle"; "volume"; "number"; "publisher";
                  "location"; "isbn"; "pagetotal" ]).
    set (arx := [ "eprint"; "archiveprefix"; "primaryclass"; "version"; "url" ]).
    set (post := [ "note"; "doi"; "file"; "comment"; "abstract" ]).
    assert (L : Obj.keys (assembled entry settings) = (pre ++ post)%list).
    { unfold assembled, base_fields, arxiv_fields, mode_fields, last_fields.
      rewrite Hm, Hi. reflexivity. }
    change (field_order false) with (pre ++ arx ++ post)%list.
    rewrite L, !filter_app, (filter_none f arx); [reflexivity |].
    intros k Hk. apply Hout. rewrite L. revert Hk. clear.
    cbn. intuition (subst; discriminate).
Qed.

(** The order of the keys is fixed: the keys of the built pairing are the
    keys of the mode, in the order in which the builder writes them,
    without those that the pairing does not have; no key comes twice. *)
Theorem buildPairing_key_order `{Utils} (entry : Entry.t) (settings : Settings.t)
        (h : heap) :
  exists b h',
    buildPairing entry settings h = Ok (b, h')
    /\ Obj.keys (objs h' (Built.pairing b))
       = filter (fun k => truthy (Obj.get (objs h' (Built.pairing b)) k))
                (field_order (Settings.mode settings =? "biblatex"))
    /\ NoDup (Obj.keys (objs h' (Built.pairing b))).
Proof.
  destruct (buildPairing_built entry settings h) as (b & h' & Hrun & Hobj & _).
  exists b, h'. split; [exact Hrun |]. rewrite Hobj.
  split; [| apply well_formed_kept, well_formed_assembled].
  rewrite (keys_kept_filter _ (well_formed_assembled entry settings)).
  apply filter_assembled_keys.
  intros k Hk. rewrite get_not_in; [reflexivity |].
  intros Hin. apply Hk. now apply keys_kept_incl.
Qed.

(** The author and the title are copied when they are not empty: an entry
    without author has no [author] field, one with an empty title no
    [title] field. *)
Theorem buildPairing_author_title `{Utils} (entry : Entry.t)
        (settings : Settings.t) (h : heap) :
  exists b h',
    buildPairing entry settings h = Ok (b, h')
    /\ Obj.get (objs h' (Built.pairing b)) "author"
       = (if authorList (joinAuthorsGetKey (Entry.authors entry) (Entry.date entry))
             =? ""
          then PUndef
          else PStr (authorList (joinAuthorsGetKey (Entry.authors entry)
                                                   (Entry.date entry))))
    /\ (Entry.authors entry = [] ->
        ~ In "author" (Obj.keys (objs h' (Built.pairing b))))
    /\ (In "title" (Obj.keys (objs h' (Built.pairing b)))
        <-> Entry.title entry <> "").
Proof.
  destruct (buildPairing_built entry settings h) as (b & h' & Hrun & Hobj & _).
  exists b, h'. split; [exact Hrun |]. rewrite Hobj.
  assert (Ea : Obj.get (assembled entry settings) "author"
               = PStr (authorList (joinAuthorsGetKey (Entry.authors entry)
                                                     (Entry.date entry))))
    by read_assembled.
  assert (Et : Obj.get (assembled entry settings) "title" = PStr (Entry.title entry))
    by read_assembled.
  split; [| split; [| split]].
  - rewrite get_built, Ea. cbn [truthy].
    destruct (_ =? ""); reflexivity.
  - intros Hno. apply kept_absent; [apply well_formed_assembled |].
    rewrite Ea, Hno. reflexivity.
  - intros Hin Hempty. revert Hin.
    apply kept_absent; [apply well_formed_assembled |].
    rewrite Et, Hempty. reflexivity.
  - intros Hne. apply kept_present; [apply well_formed_assembled |].
    rewrite Et. cbn [truthy]. apply String.eqb_neq in Hne. now rewrite Hne.
Qed.

Lemma buildPairing_author_title_sample :
  exists b h',
    @buildPairing spec_utils no_key_entry bibtex_settings empty_heap = Ok (b, h')
    /\ ~ In "author" (Obj.keys (objs h' (Built.pairing b))).
Proof.
  destruct (@buildPairing_author_title spec_utils no_key_entry bibtex_settings
              empty_heap)
    as (b & h' & Hrun & _ & Hnone & _).
  exists b, h'. split; [exact Hrun |]. apply Hnone. reflexivity.
Defined.

(** The builder writes to new objects only: the pairing it returns is at a
    location that was free, and every object that was in the heap is as it
    was. *)
Theorem buildPairing_fresh `{Utils} (entry : Entry.t) (settings : Settings.t)
        (h : heap) :
  exists b h',
    buildPairing entry settings h = Ok (b, h')
    /\ next h <= Built.pairing b < next h'
    /\ (forall l, l < next h -> objs h' l = objs h l).
Proof.
  destruct (buildPairing_run entry settings h) as (l & h' & Hrun & _ & Hl & Hext).
  eexists. exists h'. split; [exact Hrun |].
  cbn [Built.pairing]. split; [exact Hl | apply Hext].
Qed.

(* ================================================================== *)
(** ** The component *)

Lemma present_wget_command `{Utils} (entry : Entry.t) (settings : Settings.t) :
  present (wget_command entry settings)
  = Settings.includeFile settings && present (Entry.pdfLink entry).
Proof.
  unfold wget_command.
  destruct (Settings.includeFile settings && present (Entry.pdfLink entry));
    [| reflexivity].
  destruct (Settings.wgetPowershell settings); reflexivity.
Qed.

(** The component shows the download command exactly when [includeWget] and
    [includeFile] are on and the entry has a link to the PDF; what it shows
    is the command of the builder, and the [pre] element holds the
    formatted entry. *)
Theorem EntryCard_wget_block `{Utils} (entry : Entry.t) (settings : Settings.t)
        (h : heap) :
  exists c h',
    EntryCard entry settings h = Ok (c, h')
    /\ formattedEntry entry settings h = Ok (card_pre c, h')
    /\ (card_wget c <> None
        <-> Settings.includeWget settings = true
            /\ Settings.includeFile settings = true
            /\ present (Entry.pdfLink entry) = true)
    /\ (forall cmd, card_wget c = Some cmd ->
          cmd <> ""
          /\ exists b h1,
               buildPairing entry settings h = Ok (b, h1)
               /\ Built.wget b = Some cmd).
Proof.
  destruct (buildPairing_run entry settings h) as (l & h1 & Hrun & Hobj & _).
  destruct (formatEntry_spec (Entry.type entry) (entryKey entry) l h1)
    as (h' & Hrun' & _).
  { rewrite Hobj. apply abstract_is_text_built. }
  { rewrite Hobj. apply well_formed_kept, well_formed_assembled. }
  eexists. exists h'. unfold EntryCard, formattedEntry, bind. rewrite Hrun.
  cbn [Built.type Built.pairing Built.key Built.wget]. rewrite Hrun'.
  split; [reflexivity |]. cbn [card_pre card_wget].
  split; [reflexivity |].
  pose proof (present_wget_command entry settings) as Hw.
  set (w := wget_command entry settings) in *.
  split.
  - destruct (Settings.includeWget settings); cbn [andb].
    + destruct (present w) eqn:Hpw.
      * symmetry in Hw. apply andb_true_iff in Hw as [Hf Hp].
        split; [auto |]. intros _ E. rewrite E in Hpw. discriminate.
      * split; [congruence |]. intros (_ & Hf & Hp).
        rewrite Hf, Hp in Hw. discriminate.
    + split; [congruence | intros (E & _); discriminate].
  - intros cmd Hcmd.
    destruct (Settings.includeWget settings && present w) eqn:Hb; [| discriminate].
    apply andb_true_iff in Hb as [_ Hb].
    split.
    + intros ->. rewrite Hcmd in Hb. discriminate.
    + eexists. exists h1. split; [reflexivity | exact Hcmd].
Qed.

Lemma EntryCard_wget_block_sample :
  exists c h',
    @EntryCard spec_utils sample_entry bibtex_settings empty_heap = Ok (c, h')
    /\ card_wget c <> None.
Proof.
  destruct (@EntryCard_wget_block spec_utils sample_entry bibtex_settings empty_heap)
    as (c & h' & Hrun & _ & Hshown & _).
  exists c, h'. split; [exact Hrun |].
  apply Hshown. repeat split.
Defined.

(* ================================================================== *)
(** ** The pipeline on entries without line break *)

Lemma longest_le (o : Pairing) (n : nat) :
  (forall k, In k (Obj.keys o) -> String.length k <= n) -> longest o <= n.
Proof.
  induction o as [|[k v] o IH]; intros Hle; [simpl; lia |].
  cbn [longest]. apply Nat.max_lub.
  - apply Hle. now left.
  - apply IH. intros k' Hin. apply Hle. now right.
Qed.

Lemma assembled_keys_length `{Utils} (entry : Entry.t) (settings : Settings.t)
      (k : string) :
  In k (Obj.keys (assembled entry settings)) ->
  String.length k <= if goodMode settings then 12 else 13.
Proof.
  unfold assembled, base_fields, arxiv_fields, mode_fields, last_fields.
  destruct (goodMode settings);
    destruct (present (Entry.id entry));
    cbn [app Obj.keys map fst In]; intros Hin;
    repeat (destruct Hin as [<- | Hin]; [cbn; lia |]);
    contradiction.
Qed.

(** An entry whose type, key and values have no line break is read back
    from the text of the whole pipeline: the body lines give the keys and
    the texts of the values of the built pairing, in order. *)
Theorem formattedEntry_reparse `{Utils} (entry : Entry.t) (settings : Settings.t)
        (h : heap) :
  has_newline (Entry.type entry) = false ->
  has_newline (key (joinAuthorsGetKey (Entry.authors entry) (Entry.date entry)))
  = false ->
  (forall b h1 k v,
     buildPairing entry settings h = Ok (b, h1) ->
     In (k, v) (objs h1 (Built.pairing b)) -> has_newline (text_of v) = false) ->
  exists b h1 f h2,
    buildPairing entry settings h = Ok (b, h1)
    /\ formatEntry (Built.type b) (Built.pairing b) (Built.key b) h1 = Ok (f, h2)
    /\ formattedEntry entry settings h = Ok (f, h2)
    /\ Reparse.reparse (textContent f)
       = Some (shown (objs h1 (Built.pairing b))).
Proof.
  intros Hty Hkey Hplain.
  destruct (buildPairing_built entry settings h)
    as (b & h1 & Hrun & Hobj & Htype & Hk & _).
  assert (Hplain' : forall k v, In (k, v) (kept (assembled entry settings)) ->
                             has_newline (text_of v) = false).
  { intros k v Hin. apply (Hplain b h1 k v Hrun). now rewrite Hobj. }
  clear Hplain. rename Hplain' into Hplain.
  set (o := kept (assembled entry settings)) in *.
  assert (Htyped : abstract_is_text o = true) by apply abstract_is_text_built.
  assert (Hwf : well_formed o) by apply well_formed_kept, well_formed_assembled.
  assert (Hpad : padded o = o).
  { apply padded_plain; [exact Htyped |]. intros k v Hin. now apply (Hplain k v). }
  destruct (formatEntry_spec (Built.type b) (Built.key b) (Built.pairing b) h1)
    as (h2 & Hrun2 & _); [now rewrite Hobj | now rewrite Hobj |].
  rewrite Hobj, Hpad in Hrun2.
  exists b, h1, (rendered (Built.type b) o (Built.key b)), h2.
  split; [exact Hrun |]. split; [exact Hrun2 |].
  split; [unfold formattedEntry, bind; now rewrite Hrun |].
  rewrite Hobj, textContent_rendered, Htype, Hk. unfold Reparse.reparse.
  rewrite lines_entry_text; [| exact Hty | exact Hkey |].
  - rewrite removelast_last. apply parse_row_lines.
    intros k v Hin. now destruct (built_fields entry settings k v Hin) as (_ & _ & Hp & _).
  - intros k v Hin. split; [| now apply (Hplain k v)].
    apply plain_key_no_newline.
    now destruct (built_fields entry settings k v Hin) as (_ & _ & Hp & _).
Qed.

Lemma formattedEntry_reparse_sample :
  exists b h1 f h2,
    @buildPairing spec_utils sample_entry bibtex_settings empty_heap = Ok (b, h1)
    /\ @formattedEntry spec_utils sample_entry bibtex_settings empty_heap = Ok (f, h2)
    /\ Reparse.reparse (textContent f)
       = Some (shown (objs h1 (Built.pairing b))).
Proof.
  destruct (@formattedEntry_reparse spec_utils sample_entry bibtex_settings
              empty_heap)
    as (b & h1 & f & h2 & Hrun & _ & Hrun2 & Hre).
  - reflexivity.
  - reflexivity.
  - intros b h1 k v Hrun Hin.
    destruct (@buildPairing_built spec_utils sample_entry bibtex_settings empty_heap)
      as (b0 & h0 & Hrun0 & Hobj0 & _).
    rewrite Hrun in Hrun0. injection Hrun0 as <- <-.
    rewrite Hobj0 in Hin. cbv in Hin.
    repeat (destruct Hin as [E | Hin]; [injection E as <- <-; reflexivity |]).
    contradiction.
  - exists b, h1, f, h2. auto.
Defined.

(** In the pipeline the abstract of an entry is padded by 14 to 19 spaces,
    and by at most 18 in good mode: the longest key of a built pairing that
    has an abstract has 8 to 13 characters, at most 12 in good mode. *)
Theorem formattedEntry_abstract_indent `{Utils} (entry : Entry.t)
        (settings : Settings.t) (h : heap) (s : string) :
  Settings.includeAbstract settings = true ->
  Entry.abstract entry = Some s ->
  s <> "" ->
  exists f h' l n,
    formattedEntry entry settings h = Ok (f, h')
    /\ Obj.get (objs h' l) "abstract"
       = PStr (replace_newlines (nl ++ spaces n) s)
    /\ 14 <= n <= 19
    /\ (Settings.mode settings = "biblatex" -> n <= 18)
    /\ textContent f
       = header (Entry.type entry)
                (key (joinAuthorsGetKey (Entry.authors entry) (Entry.date entry)))
           ++ rows_text (n - 6) (objs h' l) ++ "}".
Proof.
  intros Hinc Habs Hs.
  destruct (present_toString _ _ Habs Hs) as [Hp _].
  destruct (formattedEntry_run entry settings h) as (l & h' & Hrun & Hobj & _).
  set (o := kept (assembled entry settings)) in *.
  assert (Hget : Obj.get o "abstract" = PStr s).
  { unfold o. rewrite get_built, get_assembled_abstract, Hinc, Habs.
    cbn [of_str truthy]. apply String.eqb_neq in Hs. now rewrite Hs. }
  assert (Hlow : 8 <= longest o).
  { apply (longest_ge o "abstract"), get_truthy_in. rewrite Hget.
    cbn [truthy]. apply String.eqb_neq in Hs. now rewrite Hs. }
  assert (Hhigh : longest o <= if goodMode settings then 12 else 13).
  { apply longest_le. intros k Hin.
    apply (assembled_keys_length entry settings). now apply keys_kept_incl. }
  exists (shownEntry entry settings), h', l, (longest o + 6).
  split; [exact Hrun |].
  split; [rewrite Hobj; now apply padded_abstract |].
  split; [destruct (goodMode settings); lia |].
  split.
  - intros Hmode. rewrite (goodMode_true _ Hmode) in Hhigh. lia.
  - unfold shownEntry. rewrite textContent_rendered. unfold entry_text.
    rewrite longest_padded, Hobj. fold o.
    replace (longest o + 6 - 6) with (longest o) by lia. reflexivity.
Qed.

Lemma formattedEntry_abstract_indent_sample :
  exists f h' l n,
    @formattedEntry spec_utils arxiv_entry bibtex_settings empty_heap = Ok (f, h')
    /\ Obj.get (objs h' l) "abstract"
       = PStr (replace_newlines (nl ++ spaces n) ("a" ++ nl ++ "b"))
    /\ 14 <= n <= 19.
Proof.
  destruct (@formattedEntry_abstract_indent spec_utils arxiv_entry bibtex_settings
              empty_heap ("a" ++ nl ++ "b"))
    as (f & h' & l & n & Hrun & Hget & Hn & _).
  - reflexivity.
  - reflexivity.
  - discriminate.
  - exists f, h', l, n. auto.
Defined.

(* ================================================================== *)
(** ** More on the key and the author list *)

Lemma concat_sep_app (sep : string) (l1 l2 : list string) :
  l1 <> [] -> l2 <> [] ->
  String.concat sep (l1 ++ l2)
  = String.concat sep l1 ++ sep ++ String.concat sep l2.
Proof.
  intros H1 H2. induction l1 as [|x l1 IH]; [congruence |].
  destruct l1 as [|y l1].
  - destruct l2 as [|z l2]; [congruence | reflexivity].
  - change (String.concat sep ((x :: y :: l1) ++ l2))
      with (x ++ sep ++ String.concat sep ((y :: l1) ++ l2)).
    rewrite IH by discriminate.
    change (String.concat sep (x :: y :: l1))
      with (x ++ sep ++ String.concat sep (y :: l1)).
    now rewrite !append_assoc.
Qed.

Lemma concat_empty_app (l1 l2 : list string) :
  String.concat "" (l1 ++ l2) = String.concat "" l1 ++ String.concat "" l2.
Proof.
  induction l1 as [|x l1 IH]; [reflexivity |].
  destruct l1 as [|y l1].
  - destruct l2 as [|z l2]; [cbn; now rewrite append_nil_r | reflexivity].
  - change (String.concat "" ((x :: y :: l1) ++ l2))
      with (x ++ "" ++ String.concat "" ((y :: l1) ++ l2)).
    rewrite IH.
    change (String.concat "" (x :: y :: l1))
      with (x ++ "" ++ String.concat "" (y :: l1)).
    cbn [append]. now rewrite append_assoc.
Qed.

Lemma last_elt_snoc (l : list string) (x : string) :
  last_elt (l ++ [x]) = Some x.
Proof.
  induction l as [|y l IH]; [reflexivity |].
  cbn [app]. destruct (l ++ [x])%list eqn:E; [| exact IH].
  destruct l; discriminate.
Qed.

(** Authors are put together one after the other: the author list of two
    lists of authors in a row is the two author lists with [ and ] in
    between, and the key has the surnames of the first list, then those of
    the second, then the year. *)
Theorem joinAuthorsGetKey_app `{Utils} (a b : list string) (date : string) :
  a <> [] ->
  b <> [] ->
  authorList (joinAuthorsGetKey (a ++ b) date)
  = authorList (joinAuthorsGetKey a date) ++ " and "
      ++ authorList (joinAuthorsGetKey b date)
  /\ key (joinAuthorsGetKey (a ++ b) date)
     = removeAccents (String.concat "" (map surname a)
                        ++ String.concat "" (map surname b)
                        ++ substring 0 4 date).
Proof.
  intros Ha Hb. unfold joinAuthorsGetKey. cbn [authorList key]. split.
  - rewrite !map_app. apply concat_sep_app.
    + destruct a; [congruence | discriminate].
    + destruct b; [congruence | discriminate].
  - unfold join. rewrite !map_map.
    rewrite (map_ext _ surname) by (intros x; apply last_elt_last).
    now rewrite map_app, concat_empty_app, append_assoc.
Qed.

Lemma joinAuthorsGetKey_app_sample :
  authorList (@joinAuthorsGetKey spec_utils (["Jane Doe"] ++ ["John Dew"]) "2020")
  = authorList (@joinAuthorsGetKey spec_utils ["Jane Doe"] "2020") ++ " and "
      ++ authorList (@joinAuthorsGetKey spec_utils ["John Dew"] "2020").
Proof.
  apply (@joinAuthorsGetKey_app spec_utils ["Jane Doe"] ["John Dew"] "2020");
    discriminate.
Defined.

(** One author whose name splits into given names followed by a surname:
    the author list is the surname, a comma and the given names with one
    space between them; the key is the stripped surname and year.  A name of
    one token gives the token followed by a comma and a space. *)
Theorem joinAuthorsGetKey_one_author `{Utils} (a : string) (given : list string)
        (sur date : string) :
  splitter_ws a = (given ++ [sur])%list ->
  authorList (joinAuthorsGetKey [a] date) = sur ++ ", " ++ String.concat " " given
  /\ key (joinAuthorsGetKey [a] date) = removeAccents (sur ++ substring 0 4 date)
  /\ (given = [] -> authorList (joinAuthorsGetKey [a] date) = sur ++ ", ").
Proof.
  intros Hsplit. unfold joinAuthorsGetKey. cbn [map authorList key String.concat].
  rewrite Hsplit, last_elt_snoc, removelast_last. unfold join.
  cbn [toString map String.concat]. split; [reflexivity |].
  split; [reflexivity |]. intros ->. reflexivity.
Qed.

Lemma joinAuthorsGetKey_one_author_sample :
  authorList (@joinAuthorsGetKey spec_utils ["Jean  Pierre Serre"] "1955")
  = "Serre" ++ ", " ++ String.concat " " ["Jean"; "Pierre"].
Proof.
  apply (@joinAuthorsGetKey_one_author spec_utils "Jean  Pierre Serre"
           ["Jean"; "Pierre"] "Serre" "1955").
  reflexivity.
Defined.

(** An author whose name has no token (an empty name) has no surname: the
    author list reads [undefined, ] and the name adds nothing to the key. *)
Theorem joinAuthorsGetKey_no_token `{Utils} (a : string) (others : list string)
        (date : string) :
  splitter_ws a = [] ->
  authorList (joinAuthorsGetKey [a] date) = "undefined, "
  /\ key (joinAuthorsGetKey [a] date) = removeAccents (substring 0 4 date)
  /\ key (joinAuthorsGetKey (a :: others) date)
     = key (joinAuthorsGetKey others date).
Proof.
  intros Hsplit. unfold joinAuthorsGetKey. cbn [map authorList key String.concat].
  rewrite Hsplit. unfold join. cbn [last_elt map toString removelast String.concat].
  split; [reflexivity |]. split; [reflexivity |].
  destruct (map _ (map last_elt (map splitter_ws others))); reflexivity.
Qed.

Lemma joinAuthorsGetKey_no_token_sample :
  authorList (@joinAuthorsGetKey spec_utils [""] "2020") = "undefined, ".
Proof.
  apply (@joinAuthorsGetKey_no_token spec_utils "" [] "2020"). reflexivity.
Defined.

(* ================================================================== *)
(** ** The authors of the form *)

Lemma split_nonempty (sep : ascii) (s : string) : Diy.split sep s <> [].
Proof.
  induction s as [|c s IH]; cbn [Diy.split]; [discriminate |].
  destruct (Ascii.eqb c sep); [discriminate |].
  destruct (Diy.split sep s); discriminate.
Qed.

Lemma split_append (sep : ascii) (a b : string) :
  Diy.split sep (a ++ String sep b) = (Diy.split sep a ++ Diy.split sep b)%list.
Proof.
  induction a as [|c a IH].
  - cbn [append Diy.split app]. now rewrite Ascii.eqb_refl.
  - change (String c a ++ String sep b) with (String c (a ++ String sep b)).
    cbn [Diy.split]. rewrite IH.
    destruct (Ascii.eqb c sep); [reflexivity |].
    pose proof (split_nonempty sep a) as Hne.
    destruct (Diy.split sep a) as [|x xs]; [congruence | reflexivity].
Qed.

Lemma split_single (s : string) :
  Diy.has_amp s = false -> Diy.split "&"%char s = [s].
Proof.
  induction s as [|c s IH]; [reflexivity |].
  cbn [Diy.has_amp Diy.split]. intros Hs.
  apply orb_false_iff in Hs as [Hc Hs]. rewrite Hc, (IH Hs). reflexivity.
Qed.

Lemma split_no_amp (s x : string) :
  In x (Diy.split "&"%char s) -> Diy.has_amp x = false.
Proof.
  revert x. induction s as [|c s IH]; intros x.
  - intros [<- | []]. reflexivity.
  - cbn [Diy.split]. destruct (Ascii.eqb c "&"%char) eqn:Hc.
    + intros [<- | Hin]; [reflexivity | now apply IH].
    + pose proof (split_nonempty "&"%char s) as Hne.
      destruct (Diy.split "&"%char s) as [|y ys]; [congruence |].
      intros [<- | Hin].
      * cbn [Diy.has_amp]. rewrite Hc. apply IH. now left.
      * apply IH. now right.
Qed.

Lemma ltrim_no_amp (s : string) :
  Diy.has_amp s = false -> Diy.has_amp (Reparse.ltrim s) = false.
Proof.
  induction s as [|c s IH]; [reflexivity |].
  cbn [Reparse.ltrim]. destruct (SpecUtils.is_space c); [| auto].
  cbn [Diy.has_amp]. intros Hs. apply orb_false_iff in Hs as [_ Hs]. auto.
Qed.

Lemma rtrim_no_amp (s : string) :
  Diy.has_amp s = false -> Diy.has_amp (Reparse.rtrim s) = false.
Proof.
  induction s as [|c s IH]; [reflexivity |].
  cbn [Diy.has_amp Reparse.rtrim]. intros Hs.
  apply orb_false_iff in Hs as [Hc Hs]. specialize (IH Hs).
  destruct (Reparse.rtrim s) as [|d r].
  - destruct (SpecUtils.is_space c); [reflexivity |].
    cbn [Diy.has_amp]. now rewrite Hc.
  - cbn [Diy.has_amp] in *. now rewrite Hc.
Qed.

Lemma rtrim_idempotent (s : string) :
  Reparse.rtrim (Reparse.rtrim s) = Reparse.rtrim s.
Proof.
  induction s as [|c s IH]; [reflexivity |].
  cbn [Reparse.rtrim]. destruct (Reparse.rtrim s) as [|d r] eqn:E.
  - destruct (SpecUtils.is_space c) eqn:Hc; [reflexivity |].
    cbn [Reparse.rtrim]. now rewrite Hc.
  - cbn [Reparse.rtrim] in *. rewrite IH. reflexivity.
Qed.

(** A trimmed text is empty or starts with a character that is not white
    space. *)
Lemma trim_starts_with_ink (s : string) :
  Reparse.ltrim (Diy.trim s) = Diy.trim s.
Proof.
  unfold Diy.trim.
  assert (Hl : forall t, Reparse.ltrim t = ""
                         \/ exists c r, Reparse.ltrim t = String c r
                                        /\ SpecUtils.is_space c = false).
  { induction t as [|c t IH]; [now left |]. cbn [Reparse.ltrim].
    destruct (SpecUtils.is_space c) eqn:Hc; [exact IH |].
    right. now exists c, t. }
  destruct (Hl s) as [E | (c & r & E & Hc)]; rewrite E; [reflexivity |].
  cbn [Reparse.rtrim]. destruct (Reparse.rtrim r).
  - rewrite Hc. cbn [Reparse.ltrim]. now rewrite Hc.
  - cbn [Reparse.ltrim]. now rewrite Hc.
Qed.

Lemma ltrim_blank (s : string) : blank s = true -> Reparse.ltrim s = "".
Proof.
  induction s as [|c s IH]; [reflexivity |].
  cbn [blank Reparse.ltrim]. intros Hs. apply andb_true_iff in Hs as [Hc Hs].
  rewrite Hc. auto.
Qed.

(** Every author that the form hands over is trimmed, at both ends, and has
    no ampersand. *)
Theorem authors_trimmed (field a : string) :
  In a (Diy.authors field) ->
  Diy.trim a = a
  /\ Reparse.ltrim a = a
  /\ Reparse.rtrim a = a
  /\ Diy.has_amp a = false.
Proof.
  unfold Diy.authors. intros Hin.
  apply in_map_iff in Hin as (x & <- & Hx).
  apply filter_In in Hx as [Hx _].
  assert (Hr : Reparse.rtrim (Diy.trim x) = Diy.trim x)
    by (unfold Diy.trim; apply rtrim_idempotent).
  pose proof (trim_starts_with_ink x) as Hl.
  split; [| split; [exact Hl | split; [exact Hr |]]].
  - unfold Diy.trim at 1. now rewrite Hl.
  - unfold Diy.trim. apply rtrim_no_amp, ltrim_no_amp.
    now apply (split_no_amp field).
Qed.

Lemma authors_trimmed_sample :
  Diy.trim "Jane Doe" = "Jane Doe".
Proof.
  apply (authors_trimmed " Jane Doe &John Dew" "Jane Doe").
  cbn. auto.
Defined.

(** The field is read segment by segment: the authors of two fields joined
    by an ampersand are the authors of the first followed by those of the
    second. *)
Theorem authors_append (a b : string) :
  Diy.authors (a ++ "&" ++ b) = (Diy.authors a ++ Diy.authors b)%list.
Proof.
  unfold Diy.authors.
  change (a ++ "&" ++ b) with (a ++ String "&"%char b).
  now rewrite split_append, filter_app, map_app.
Qed.

(** Empty segments are dropped, so an empty field has no author; but the
    segments are filtered before they are trimmed: a segment made of white
    space only is kept and becomes an author with an empty name. *)
Theorem authors_blank_segment (a b seg : string) :
  Diy.authors "" = []
  /\ Diy.authors (a ++ "&" ++ "" ++ "&" ++ b)
     = (Diy.authors a ++ Diy.authors b)%list
  /\ (seg <> "" -> blank seg = true -> Diy.has_amp seg = false ->
      Diy.authors seg = [""]
      /\ Diy.authors (a ++ "&" ++ seg ++ "&" ++ b)
         = (Diy.authors a ++ [""] ++ Diy.authors b)%list).
Proof.
  split; [reflexivity |]. split.
  - now rewrite !authors_append.
  - intros Hne Hblank Hamp.
    assert (Hseg : Diy.authors seg = [""]).
    { unfold Diy.authors. rewrite (split_single seg Hamp). cbn [filter].
      apply String.eqb_neq in Hne. rewrite Hne. cbn [negb map].
      unfold Diy.trim. now rewrite (ltrim_blank seg Hblank). }
    split; [exact Hseg |]. now rewrite !authors_append, Hseg.
Qed.

Lemma authors_blank_segment_sample :
  Diy.authors ("Jane Doe" ++ "&" ++ " " ++ "&" ++ "John Dew")
  = (Diy.authors "Jane Doe" ++ [""] ++ Diy.authors "John Dew")%list.
Proof.
  apply (authors_blank_segment "Jane Doe" "John Dew" " ");
    [discriminate | reflexivity | reflexivity].
Defined.
